(** * Test School: the test-session engine and the progression rules

    A shallow embedding of the backend's scoring and progression logic:

    - [backend/src/types/index.ts]          the enumerations,
    - [backend/src/models/User.ts]          [canTakeTestStep],
    - [backend/src/models/TestSession.ts]   the schema's check of [step],
                                            the [pre('save')] hook,
                                            [determineLevelAndProgression],
                                            [isExpired], [getRemainingTime],
    - [backend/src/models/Question.ts]      the [pre('save')] hook,
    - the test controller                   [startTest], [submitAnswer],
                                            [completeTest] and the
                                            handlers that only read,
    - the question controller               its check of the options,
                                            [deleteQuestion].

    The MongoDB collections are lists of documents in insertion order
    (the order [findOne] and [find().limit(n)] scan them in); a request
    handler is a function from the database, the authenticated user, the
    request's fields and the reading of the clock to the new database and
    the HTTP response. *)

From Stdlib Require Import ZArith QArith Qround Qfield Lia Lqa.
From stdpp Require Import base decidable option list strings numbers infinite.

Local Open Scope Z_scope.

(** ** Enumerations ([types/index.ts]) *)

Inductive AssessmentLevel := A1 | A2 | B1 | B2 | C1 | C2.

Inductive TestStatus :=
  NOT_STARTED | IN_PROGRESS | COMPLETED | FAILED | TIME_EXPIRED.

#[global] Instance AssessmentLevel_eq_dec : EqDecision AssessmentLevel.
Proof. solve_decision. Defined.

#[global] Instance TestStatus_eq_dec : EqDecision TestStatus.
Proof. solve_decision. Defined.

(** [TestStep] is the numeric enum [STEP_1 = 1], [STEP_2 = 2],
    [STEP_3 = 3]; a step travels as a number (the request body's [step],
    the argument of [canTakeTestStep]). *)
Abbreviation TestStep := Z.
Definition STEP_1 : TestStep := 1.
Definition STEP_2 : TestStep := 2.
Definition STEP_3 : TestStep := 3.

(** A MongoDB [ObjectId] is an opaque 96-bit identifier; only equality
    and freshness of a newly generated one are used. *)
Abbreviation ObjectId := nat.

(** A [Date] is its [getTime()], milliseconds since the epoch. *)
Abbreviation Date := Z.

(** ** Documents *)

(** [IUser], restricted to the fields the engine reads or writes. *)
Record User := mkUser {
  user_id : ObjectId;
  currentLevel : option AssessmentLevel;
  canTakeTest : bool;
  lastTestAttempt : option Date
}.

(** One entry of [IQuestion.options]. *)
Record QuestionOption := mkOption {
  text : string;
  optIsCorrect : bool
}.

(** [IQuestion], restricted to the fields the engine reads.  [qstep] is
    the value the [step] clause of [Question.find({ step, isActive })]
    is matched against. *)
Record Question := mkQuestion {
  question_id : ObjectId;
  qstep : TestStep;
  options : list QuestionOption;
  isActive : bool
}.

(** One entry of [ITestSession.answers]. *)
Record Answer := mkAnswer {
  questionId : ObjectId;
  selectedOption : Z;
  isCorrect : bool;
  timeSpent : Z
}.

(** [ITestSession].  [score] is a count; [percentage] is a JS number,
    kept as a rational. *)
Record TestSession := mkSession {
  session_id : ObjectId;
  userId : ObjectId;
  step : TestStep;
  questions : list ObjectId;
  answers : list Answer;
  startTime : Date;
  endTime : option Date;
  timeLimit : Z;
  status : TestStatus;
  score : nat;
  percentage : Q;
  levelAchieved : option AssessmentLevel;
  canProceedToNext : bool
}.

(** The three collections. *)
Record DB := mkDB {
  db_users : list User;
  db_questions : list Question;
  db_sessions : list TestSession
}.

(** ** Numbers *)

(** [x < y] and [x >= y] on JS numbers, as booleans. *)
Definition Qltb (x y : Q) : bool := negb (Qle_bool y x).
Definition Qgeb (x y : Q) : bool := Qle_bool y x.

(** [Math.round]: the nearest integer, a tie going up. *)
Definition Math_round (x : Q) : Z := Qfloor (x + (1 # 2))%Q.

Definition Qnat (n : nat) : Q := inject_Z (Z.of_nat n).

(** ** [User.canTakeTestStep] *)

(** [this.currentLevel === l] *)
Definition levelIs (u : User) (l : option AssessmentLevel) : bool :=
  bool_decide (currentLevel u = l).

Definition canTakeTestStep (u : User) (step : Z) : bool :=
  (* If user failed Step 1, they cannot retake *)
  if negb (canTakeTest u) then false
  else
    (* Logic for determining if user can take specific test step *)
    match step with
    | 1 => levelIs u None || levelIs u (Some A1) || levelIs u (Some A2)
    | 2 => levelIs u (Some A2) || levelIs u (Some B1) || levelIs u (Some B2)
    | 3 => levelIs u (Some B2) || levelIs u (Some C1) || levelIs u (Some C2)
    | _ => false
    end.

(** ** [TestSession]: the methods and the [pre('save')] hook *)

Definition set_outcome (s : TestSession)
    (l : option AssessmentLevel) (p : bool) : TestSession :=
  mkSession (session_id s) (userId s) (step s) (questions s) (answers s)
    (startTime s) (endTime s) (timeLimit s) (status s) (score s)
    (percentage s) l p.

Definition set_score (s : TestSession) (n : nat) (p : Q) : TestSession :=
  mkSession (session_id s) (userId s) (step s) (questions s) (answers s)
    (startTime s) (endTime s) (timeLimit s) (status s) n p
    (levelAchieved s) (canProceedToNext s).

Definition set_answers (s : TestSession) (l : list Answer) : TestSession :=
  mkSession (session_id s) (userId s) (step s) (questions s) l
    (startTime s) (endTime s) (timeLimit s) (status s) (score s)
    (percentage s) (levelAchieved s) (canProceedToNext s).

Definition set_completed (s : TestSession) (now : Date) : TestSession :=
  mkSession (session_id s) (userId s) (step s) (questions s) (answers s)
    (startTime s) (Some now) (timeLimit s) COMPLETED (score s)
    (percentage s) (levelAchieved s) (canProceedToNext s).

(** The level and the progression flag for a step and a percentage; a
    step outside 1..3 matches no [case] and leaves both fields as they
    are. *)
Definition levelAndProgression (step : Z) (percentage : Q)
    : option (option AssessmentLevel * bool) :=
  match step with
  | 1 =>
      if Qltb percentage 25 then Some (None, false)
      else if Qltb percentage 50 then Some (Some A1, false)
      else if Qltb percentage 75 then Some (Some A2, false)
      else Some (Some A2, true)
  | 2 =>
      if Qltb percentage 25 then Some (Some A2, false) (* Remain at A2 *)
      else if Qltb percentage 50 then Some (Some B1, false)
      else if Qltb percentage 75 then Some (Some B2, false)
      else Some (Some B2, true)
  | 3 =>
      if Qltb percentage 25 then Some (Some B2, false) (* Remain at B2 *)
      else if Qltb percentage 50 then Some (Some C1, false)
      else Some (Some C2, false) (* No next step after C2 *)
  | _ => None
  end.

Definition determineLevelAndProgression (s : TestSession) : TestSession :=
  match levelAndProgression (step s) (percentage s) with
  | Some (l, p) => set_outcome s l p
  | None => s
  end.

(** [this.answers.filter(answer => answer.isCorrect).length] *)
Definition correctAnswers (s : TestSession) : nat :=
  length (filter (λ a, isCorrect a = true) (answers s)).

(** The percentage the hook stores.  [Math.round] is applied to the
    floating-point value of [correct / total * 100]; for the at most 20
    questions of a session that value rounds as the exact quotient does
    (a tie needs [total] to be 8 or 16, where the division is exact). *)
Definition roundedPercentage (correct total : nat) : Q :=
  if bool_decide (0 < total)%nat
  then inject_Z (Math_round (Qnat correct / Qnat total * 100)%Q)
  else 0%Q.

(** [testSessionSchema.pre('save', ...)] *)
Definition preSave (s : TestSession) : TestSession :=
  if bool_decide (0 < length (answers s))%nat then
    let correct := correctAnswers s in
    let totalQuestions := length (questions s) in
    determineLevelAndProgression
      (set_score s correct (roundedPercentage correct totalQuestions))
  else s.

(** [isExpired()], at the clock reading [now]; [timeLimit] is in
    minutes.  [startTime] is always set on a stored session. *)
Definition isExpired (s : TestSession) (now : Date) : bool :=
  if bool_decide (status s = COMPLETED) then false
  else bool_decide (startTime s + timeLimit s * 60 * 1000 < now).

(** ** Errors

    A handler either sends an error response ([throw new AppError(..)]
    caught by its own [catch], or the early 400 of a failed validation)
    or completes and sends its data.  An error that is not an
    [AppError] (a TypeError, a validation error of a schema) reaches the
    generic branch of the handler's [catch] and is answered with 500
    'Internal server error'.  No handler writes to the database before
    the last point at which it throws, so a failure carries no new
    database.  Of the schemas' validators the check of a session's
    [step] is modelled ([stepAccepted]); the others pass on what the
    handlers store, and failures of the database itself are not
    modelled. *)

Record Failure := mkFailure { statusCode : nat; message : string }.

Inductive Except (A : Type) : Type :=
| Thrown (e : Failure)
| Done (a : A).
Arguments Thrown {A} e.
Arguments Done {A} a.

#[global] Instance Except_ret : MRet Except := λ A a, Done a.
#[global] Instance Except_bind : MBind Except := λ A B f m,
  match m with
  | Thrown e => Thrown e
  | Done a => f a
  end.

(** [if (!cond) throw new AppError(message, statusCode)] *)
Definition check (cond : bool) (statusCode : nat) (message : string)
    : Except unit :=
  if cond then Done () else Thrown (mkFailure statusCode message).

(** [if (!doc) throw new AppError(message, statusCode)] *)
Definition found {A} (doc : option A) (statusCode : nat) (message : string)
    : Except A :=
  match doc with
  | Some a => Done a
  | None => Thrown (mkFailure statusCode message)
  end.

(** ** The session schema's check of [step]

    [step: { type: Number, enum: Object.values(TestStep) }].  The values
    of the numeric enum are its names followed by its numbers,
    ['STEP_1', 'STEP_2', 'STEP_3', 1, 2, 3].  The schema hands the
    elements of the array to the path's [enum] one by one, so the first,
    'STEP_1', is taken for the list of values and the second, 'STEP_2',
    for the error message, and the validator is
    ['STEP_1'.indexOf(step) !== -1]: of the steps 1 to 3 only step 1
    passes, and the save of a session of step 2 or 3 is refused (with
    the message STEP_2).  The error is not an [AppError]. *)
Definition stepAccepted (step : Z) : bool := bool_decide (step = 1).

(** ** Collections *)

(** [Model.findOne(filter)]: the first document that matches. *)
Definition findOne {A} (P : A → Prop) `{∀ x, Decision (P x)}
    (l : list A) : option A :=
  snd <$> list_find P l.

(** [doc.save()]: a document whose [_id] is stored is replaced in place,
    a new one is appended. *)
Fixpoint store {A} (key : A → ObjectId) (doc : A) (l : list A) : list A :=
  match l with
  | [] => [doc]
  | x :: l' =>
      if bool_decide (key x = key doc) then doc :: l'
      else x :: store key doc l'
  end.

Definition saveSession (s : TestSession) (db : DB) : DB :=
  mkDB (db_users db) (db_questions db) (store session_id s (db_sessions db)).

Definition saveUser (u : User) (db : DB) : DB :=
  mkDB (store user_id u (db_users db)) (db_questions db) (db_sessions db).

(** The write of a question document by the question routes
    ([question.save()] of [createQuestion], the documents of
    [bulkCreateQuestions], the update of [updateQuestion]): whatever
    the routes let through, the document is appended, or the stored one
    with its id is overwritten. *)
Definition saveQuestion (q : Question) (db : DB) : DB :=
  mkDB (db_users db) (store question_id q (db_questions db)) (db_sessions db).

(** [findByIdAndDelete]: the first document with the id is removed. *)
Fixpoint deleteDoc {A} (key : A → ObjectId) (id : ObjectId) (l : list A)
    : list A :=
  match l with
  | [] => []
  | x :: l' => if bool_decide (key x = id) then l' else x :: deleteDoc key id l'
  end.

(** [new ObjectId()] for a new session. *)
Definition newSessionId (db : DB) : ObjectId :=
  fresh (session_id <$> db_sessions db).

(** ** The test controller *)

(** The data of the three success responses. *)
Inductive StartData :=
| SessionInProgress (data : TestSession)
    (* 200, 'Test session already in progress' *)
| SessionStarted (sessionId : ObjectId)
    (questions : list (ObjectId * list string))
    (timeLimit : Z) (totalQuestions : nat).
    (* 201, 'Test session started successfully' *)

Record AnswerData := mkAnswerData {
  ad_questionId : ObjectId;
  ad_isCorrect : bool;
  ad_totalAnswered : nat;
  ad_totalQuestions : nat
}.

Record CompletionData := mkCompletionData {
  cd_sessionId : ObjectId;
  cd_score : nat;
  cd_percentage : Q;
  cd_levelAchieved : option AssessmentLevel;
  cd_canProceedToNext : bool;
  cd_timeTaken : Z;
  cd_totalQuestions : nat;
  cd_correctAnswers : nat
}.

(** [startTest]; [step'] is the request body's [step], [now] is what
    [Date.now] gives the new session's [startTime] default. *)
Definition startTest (db : DB) (uid : ObjectId) (step' : Z) (now : Date)
    : Except (DB * StartData) :=
  check (bool_decide (1 ≤ step' ≤ 3)) 400 "Validation failed";;
  (* Check if user can take this test step *)
  user ← found (findOne (λ u, user_id u = uid) (db_users db))
            404 "User not found";
  check (canTakeTestStep user step')
    403 "You are not eligible to take this test step";;
  (* Check for existing active test session *)
  match findOne (λ s, userId s = uid ∧ step s = step'
                      ∧ status s = IN_PROGRESS) (db_sessions db) with
  | Some existingSession => mret (db, SessionInProgress existingSession)
  | None =>
      (* Get questions for this step *)
      let questions :=
        take 20 (filter (λ q, qstep q = step' ∧ isActive q = true)
                   (db_questions db)) in
      check (negb (bool_decide (length questions = 0%nat)))
        404 "No questions available for this test step";;
      (* Create new test session *)
      let testSession :=
        mkSession (newSessionId db) uid step'
          (question_id <$> questions) [] now None 30 IN_PROGRESS
          0%nat 0%Q None false in
      (* await testSession.save() *)
      check (stepAccepted (step testSession)) 500 "Internal server error";;
      let testSession := preSave testSession in
      mret (saveSession testSession db,
            SessionStarted (session_id testSession)
              ((λ q, (question_id q, text <$> options q)) <$> questions)
              (timeLimit testSession) (length questions))
  end.

(** [question.options[selectedOption]?.isCorrect || false] *)
Definition optionIsCorrect (question : Question) (selectedOption : Z) : bool :=
  match options question !! Z.to_nat selectedOption with
  | Some o => optIsCorrect o
  | None => false
  end.

(** [submitAnswer] *)
Definition submitAnswer (db : DB) (uid sessionId qid : ObjectId)
    (selectedOption timeSpent : Z) : Except (DB * AnswerData) :=
  check (bool_decide (0 ≤ selectedOption) && bool_decide (0 ≤ timeSpent))
    400 "Validation failed";;
  (* Find test session *)
  testSession ←
    found (findOne (λ s, session_id s = sessionId ∧ userId s = uid
                         ∧ status s = IN_PROGRESS) (db_sessions db))
      404 "Test session not found or not active";
  (* Find the question to check correct answer *)
  question ← found (findOne (λ q, question_id q = qid) (db_questions db))
                404 "Question not found";
  (* Check if question belongs to this test session *)
  check (bool_decide (qid ∈ questions testSession))
    400 "Question does not belong to this test session";;
  (* Check if answer already exists for this question *)
  let existingAnswerIndex :=
    list_find (λ a, questionId a = qid) (answers testSession) in
  let isCorrect := optionIsCorrect question selectedOption in
  let answerData := mkAnswer qid selectedOption isCorrect timeSpent in
  let answers' :=
    match existingAnswerIndex with
    | Some (i, _) => <[i := answerData]> (answers testSession)
    | None => answers testSession ++ [answerData]
    end in
  let testSession := preSave (set_answers testSession answers') in
  mret (saveSession testSession db,
        mkAnswerData qid isCorrect (length (answers testSession))
          (length (questions testSession))).

(** [testSession.calculateScore()].  The session schema defines the
    methods [determineLevelAndProgression], [isExpired] and
    [getRemainingTime] and no [calculateScore]: the call throws a
    TypeError, which is not an [AppError]. *)
Definition calculateScore (s : TestSession) : Except TestSession :=
  Thrown (mkFailure 500 "Internal server error").

Definition set_level (u : User) (l : AssessmentLevel) : User :=
  mkUser (user_id u) (Some l) (canTakeTest u) (lastTestAttempt u).

(** [completeTest], lines 230-276: the user's level after the test. *)
Definition updateLevel (user : User) (testSession : TestSession) : User :=
  if Qgeb (percentage testSession) 75 then
    (* User can proceed to next step *)
    match step testSession with
    | 1 => set_level user A2
    | 2 => set_level user B2
    | 3 => set_level user C2
    | _ => user
    end
  else if Qgeb (percentage testSession) 50 then
    (* User gets intermediate level *)
    match step testSession with
    | 1 => set_level user A2
    | 2 => set_level user B2
    | 3 => set_level user C1
    | _ => user
    end
  else if Qgeb (percentage testSession) 25 then
    (* User gets basic level *)
    match step testSession with
    | 1 => set_level user A1
    | 2 => set_level user B1
    | 3 => set_level user C1
    | _ => user
    end
  else
    (* Failed the test *)
    if bool_decide (step testSession = 1)
    then mkUser (user_id user) (currentLevel user) false
           (lastTestAttempt user) (* Cannot retake Step 1 *)
    else user. (* For other steps, user remains at current level *)

(** [completeTest] (also exported as [submitTest]); [now] is the reading
    of the clock for [endTime] and [lastTestAttempt]. *)
Definition completeTest (db : DB) (uid sessionId : ObjectId) (now : Date)
    : Except (DB * CompletionData) :=
  (* Find test session *)
  testSession ←
    found (findOne (λ s, session_id s = sessionId ∧ userId s = uid
                         ∧ status s = IN_PROGRESS) (db_sessions db))
      404 "Test session not found or not active";
  (* Mark test as completed *)
  let testSession := set_completed testSession now in
  (* Calculate final score *)
  testSession ← calculateScore testSession;
  let testSession := preSave testSession in
  let db := saveSession testSession db in
  (* Update user's level and test eligibility *)
  let user :=
    (λ user, mkUser (user_id user) (currentLevel user) (canTakeTest user)
               (Some now))
    <$> (flip updateLevel testSession
         <$> findOne (λ u, user_id u = uid) (db_users db)) in
  let db := from_option (λ u, saveUser u db) db user in
  mret (db,
        mkCompletionData (session_id testSession) (score testSession)
          (percentage testSession) (user ≫= currentLevel)
          (Qgeb (percentage testSession) 75)
          (now - startTime testSession) (length (questions testSession))
          (score testSession)).

(** ** Requests and reachable states *)

(** [deleteQuestion] *)
Definition deleteQuestion (db : DB) (id : ObjectId) : Except DB :=
  found (findOne (λ q, question_id q = id) (db_questions db))
    404 "Question not found";;
  mret (mkDB (db_users db) (deleteDoc question_id id (db_questions db))
          (db_sessions db)).

(** The requests that write to the database: the three test routes,
    the write of a question document by the question routes, and the
    deletion of a question. *)
Inductive Request :=
| StartTest (uid : ObjectId) (step : Z) (now : Date)
| SubmitAnswer (uid sessionId questionId : ObjectId)
    (selectedOption timeSpent : Z)
| CompleteTest (uid sessionId : ObjectId) (now : Date)
| SaveQuestion (q : Question)
| DeleteQuestion (id : ObjectId).

(** The database a handler leaves behind. *)
Definition after {A} (db : DB) (r : Except (DB * A)) : DB :=
  match r with
  | Done (db', _) => db'
  | Thrown _ => db
  end.

Definition handle (db : DB) (r : Request) : DB :=
  match r with
  | StartTest uid st now => after db (startTest db uid st now)
  | SubmitAnswer uid sid qid sel ts =>
      after db (submitAnswer db uid sid qid sel ts)
  | CompleteTest uid sid now => after db (completeTest db uid sid now)
  | SaveQuestion q => saveQuestion q db
  | DeleteQuestion id =>
      match deleteQuestion db id with
      | Done db' => db'
      | Thrown _ => db
      end
  end.

Definition run (db : DB) (rs : list Request) : DB := foldl handle db rs.

Definition reachable (db0 db : DB) : Prop := ∃ rs, db = run db0 rs.

(** The response alone. *)
Definition response {A} (r : Except (DB * A)) : Except A :=
  match r with
  | Thrown e => Thrown e
  | Done (_, a) => Done a
  end.

(** The IN_PROGRESS sessions of a user at a step. *)
Definition activeSessions (uid : ObjectId) (st : Z) (db : DB)
    : list TestSession :=
  filter (λ s, userId s = uid ∧ step s = st ∧ status s = IN_PROGRESS)
    (db_sessions db).

Definition oneActive (db : DB) : Prop :=
  ∀ uid st, (length (activeSessions uid st db) ≤ 1)%nat.

(** MongoDB keeps [_id] unique within a collection. *)
Definition uniqueIds (db : DB) : Prop :=
  NoDup (session_id <$> db_sessions db).

(** What every reachable database satisfies. *)
Definition Inv (db : DB) : Prop := uniqueIds db ∧ oneActive db.

(** The session stored under an id. *)
Definition sessionById (sid : ObjectId) (db : DB) : option TestSession :=
  findOne (λ s, session_id s = sid) (db_sessions db).

Definition userById (uid : ObjectId) (db : DB) : option User :=
  findOne (λ u, user_id u = uid) (db_users db).

Definition questionById (qid : ObjectId) (db : DB) : option Question :=
  findOne (λ q, question_id q = qid) (db_questions db).

(** The session [submitAnswer] and [completeTest] work on. *)
Definition activeSession (uid sid : ObjectId) (db : DB)
    : option TestSession :=
  findOne (λ s, session_id s = sid ∧ userId s = uid ∧ status s = IN_PROGRESS)
    (db_sessions db).

(** The questions [startTest] can draw from. *)
Definition questionPool (st : Z) (db : DB) : list Question :=
  filter (λ q, qstep q = st ∧ isActive q = true) (db_questions db).

(** The session [startTest] resumes, if any. *)
Definition existingSession (uid : ObjectId) (st : Z) (db : DB)
    : option TestSession :=
  findOne (λ s, userId s = uid ∧ step s = st ∧ status s = IN_PROGRESS)
    (db_sessions db).

(** The session [startTest] creates. *)
Definition newSession (db : DB) (uid : ObjectId) (st : Z) (now : Date)
    : TestSession :=
  mkSession (newSessionId db) uid st
    (question_id <$> take 20 (questionPool st db)) [] now None 30
    IN_PROGRESS 0%nat 0%Q None false.

(** The answers of a session after [submitAnswer] has put [a] in. *)
Definition upsertAnswer (a : Answer) (l : list Answer) : list Answer :=
  match list_find (λ x, questionId x = questionId a) l with
  | Some (i, _) => <[i := a]> l
  | None => l ++ [a]
  end.

(** The session [submitAnswer] saves for the active session [s]. *)
Definition withAnswer (s : TestSession) (a : Answer) : TestSession :=
  preSave (set_answers s (upsertAnswer a (answers s))).

(** The user that lines 230-279 of [completeTest] save for a session. *)
Definition standingAfter (u : User) (s : TestSession) (now : Date) : User :=
  let u' := updateLevel u s in
  mkUser (user_id u') (currentLevel u') (canTakeTest u') (Some now).

(** ** Concrete scenarios *)

Module Scenario.

(** A question with [n] options of which option [correct] is the
    correct one. *)
Definition choice (n correct : nat) : list QuestionOption :=
  (λ i, mkOption "option" (bool_decide (i = correct))) <$> seq 0 n.

(** [n] active questions of a step, ids 100, 101, ..., four options
    each, the first one correct. *)
Definition pool (n : nat) (st : Z) : list Question :=
  (λ i, mkQuestion (100 + i) st (choice 4 0) true) <$> seq 0 n.

(** Session [sid] answers questions [from .. from + n - 1] of the pool
    with option [sel]. *)
Definition answersTo (uid sid : ObjectId) (from n : nat) (sel : Z)
    : list Request :=
  (λ i, SubmitAnswer uid sid (100 + i) sel 5) <$> seq from n.

(** [n] more active questions of a step, ids 200, 201, ... *)
Definition pool' (n : nat) (st : Z) : list Question :=
  (λ i, mkQuestion (200 + i) st (choice 4 0) true) <$> seq 0 n.

(** User 1 holds [level]; the pool has [n] questions of step [st]. *)
Definition initial (level : option AssessmentLevel) (n : nat) (st : Z)
    : DB :=
  mkDB [mkUser 1 level true None] (pool n st) [].

(** User 1 starts step [st] at time 1000 and answers the first
    [good] questions correctly and the next [bad] ones wrongly. *)
Definition attempt (level : option AssessmentLevel) (n : nat) (st : Z)
    (good bad : nat) : DB :=
  run (initial level n st)
    (StartTest 1 st 1000
     :: answersTo 1 0 0 good 0 ++ answersTo 1 0 good bad 1).

(** Stage 1, 20 questions, 15 answered correctly, 5 never answered. *)
Definition stage1_15_of_20 : DB := attempt None 20 1 15 0.


(** Stage 1, 20 questions, nothing answered yet. *)
Definition stage1_started : DB := attempt None 20 1 0 0.

(** Its session: started at 1000 with a budget of 30 minutes, it
    expires at 1801000. *)
Definition startedSession : TestSession :=
  newSession (initial None 20 1) 1 1 1000.

(** The session a database stores under an id ([startedSession] if
    there is none). *)
Definition stored (sid : ObjectId) (db : DB) : TestSession :=
  default startedSession (sessionById sid db).

(** Stage 1, 20 questions, 5 correct and 15 wrong. *)
Definition stage1_5_of_20 : DB := attempt None 20 1 5 15.

(** A database that holds a COMPLETED session, as other means than the
    handlers have written it: the session of [stage1_15_of_20], marked
    COMPLETED at time 5000. *)
Definition archived : DB :=
  mkDB (db_users stage1_15_of_20) (db_questions stage1_15_of_20)
    [set_completed (stored 0 stage1_15_of_20) 5000].

(** A user at level B2 with 20 questions of step 2 and none of
    step 3. *)
Definition levelB2 : DB := initial (Some B2) 20 2.

(** The first question of the pool with its correct option moved from
    index 0 to index 1. *)
Definition edited : Question := mkQuestion 100 1 (choice 4 1) true.

(** The first question of the pool, deactivated. *)
Definition deactivated : Question := mkQuestion 100 1 (choice 4 0) false.

(** A user at level A2 whose [canTakeTest] flag is off. *)
Definition lockedA2 : User := mkUser 1 (Some A2) false (Some 5000).

(** A user at level B2 whose [canTakeTest] flag is off. *)
Definition lockedB2 : User := mkUser 1 (Some B2) false (Some 5000).

(** The locked user with questions of steps 1 and 2 and the session of a
    second user in progress. *)
Definition locked : DB :=
  run (mkDB [lockedA2; mkUser 2 None true None] (pool 20 1 ++ pool' 20 2) [])
    [StartTest 2 1 1000].

End Scenario.

(** ** The rest of the session model *)

(** [getRemainingTime()], in minutes, at the clock reading [now].  The
    division is exact while the difference of the two times stays far
    below 2^53 milliseconds. *)
Definition getRemainingTime (s : TestSession) (now : Date) : Z :=
  if bool_decide (status s = COMPLETED) then 0
  else
    let expiredTime := startTime s + timeLimit s * 60 * 1000 in
    let remainingMs := expiredTime - now in
    Z.max 0 (Qceiling (inject_Z remainingMs / inject_Z (60 * 1000))).

(** The instant a session's budget ends, [expiredTime] in both
    methods. *)
Definition expiredTime (s : TestSession) : Date :=
  startTime s + timeLimit s * 60 * 1000.

(** ** The rest of the test controller *)

(** [getStepLevels] *)
Definition getStepLevels (step : Z) : list AssessmentLevel :=
  match step with
  | 1 => [A1; A2]
  | 2 => [B1; B2]
  | 3 => [C1; C2]
  | _ => []
  end.

(** [getStepDescription] *)
Definition getStepDescription (step : Z) : string :=
  match step with
  | 1 => "Basic digital competency assessment covering fundamental computer skills"
  | 2 => "Intermediate digital competency assessment covering advanced computer skills"
  | 3 => "Advanced digital competency assessment covering expert-level skills"
  | _ => "Digital competency assessment"
  end.

(** One entry of [availableTests] (without the [name] string). *)
Record AvailableTest := mkAvailableTest {
  at_step : Z;
  at_description : string;
  at_questionCount : nat;
  at_timeLimit : Z;
  at_levels : list AssessmentLevel
}.

Record AvailableData := mkAvailableData {
  av_availableTests : list AvailableTest;
  av_currentLevel : option AssessmentLevel;
  av_canTakeTest : bool
}.

(** [getAvailableTests]: the loop over steps 1, 2, 3. *)
Definition getAvailableTests (db : DB) (uid : ObjectId) : Except AvailableData :=
  user ← found (findOne (λ u, user_id u = uid) (db_users db))
            404 "User not found";
  let availableTests :=
    (λ step, mkAvailableTest step (getStepDescription step)
               (length (filter (λ q, qstep q = step ∧ isActive q = true)
                          (db_questions db)))
               30 (getStepLevels step))
    <$> filter (λ step, canTakeTestStep user step = true) [1; 2; 3] in
  mret (mkAvailableData availableTests (currentLevel user) (canTakeTest user)).

(** [getTestHistory]: the user's COMPLETED and FAILED sessions, newest
    first.  The collection keeps its documents in the order they were
    created in, so descending [createdAt] is the collection reversed. *)
Definition getTestHistory (db : DB) (uid : ObjectId) : list TestSession :=
  reverse (filter (λ s, userId s = uid
                        ∧ (status s = COMPLETED ∨ status s = FAILED))
             (db_sessions db)).

(** [.populate('questions')]: each id is replaced by its document; an
    id without a document is dropped. *)
Definition populate (ids : list ObjectId) (db : DB) : list Question :=
  omap (λ id, findOne (λ q, question_id q = id) (db_questions db)) ids.

(** [getCurrentTest] *)
Definition getCurrentTest (db : DB) (uid : ObjectId)
    : Except (TestSession * list Question) :=
  currentTest ←
    found (findOne (λ s, userId s = uid ∧ status s = IN_PROGRESS)
             (db_sessions db))
      404 "No active test session found";
  mret (currentTest, populate (questions currentTest) db).

(** [getTestSession] *)
Definition getTestSession (db : DB) (uid sessionId : ObjectId)
    : Except (TestSession * list Question) :=
  testSession ←
    found (findOne (λ s, session_id s = sessionId ∧ userId s = uid)
             (db_sessions db))
      404 "Test session not found";
  mret (testSession, populate (questions testSession) db).

(** ** The question model and its controller *)

(** [questionSchema.pre('save', ...)]: the message of the error passed
    to [next], if any. *)
Definition questionPreSave (q : Question) : option string :=
  let hasCorrectAnswer := existsb optIsCorrect (options q) in
  if negb hasCorrectAnswer
  then Some "Question must have at least one correct answer"
  else if bool_decide (length (options q) < 2 ∨ 4 < length (options q))%nat
  then Some "Question must have between 2 and 4 options"
  else None.

(** The controller's check of an option list, as [createQuestion] and
    [updateQuestion] make it. *)
Definition checkOptions (options : list QuestionOption) : Except unit :=
  check (negb (bool_decide (length options < 2 ∨ 4 < length options)%nat))
    400 "Question must have between 2 and 4 options";;
  let hasCorrectAnswer := existsb optIsCorrect options in
  check hasCorrectAnswer 400 "Question must have at least one correct answer".

(** ** Orders and further predicates *)

(** The authenticated user of a request ([req.user.userId]) of the test
    routes; the question routes are not among them. *)
Definition requester (r : Request) : option ObjectId :=
  match r with
  | StartTest uid _ _ | SubmitAnswer uid _ _ _ _ | CompleteTest uid _ _ =>
      Some uid
  | SaveQuestion _ | DeleteQuestion _ => None
  end.

(** The data of a response, if it is not an error. *)
Definition response' {A} (r : Except A) : option A :=
  match r with
  | Thrown _ => None
  | Done a => Some a
  end.

(** The rank of a level, [null] below A1. *)
Definition levelRank (l : option AssessmentLevel) : nat :=
  match l with
  | None => 0
  | Some A1 => 1
  | Some A2 => 2
  | Some B1 => 3
  | Some B2 => 4
  | Some C1 => 5
  | Some C2 => 6
  end.

(** An option list the question model accepts. *)
Definition validOptions (options : list QuestionOption) : Prop :=
  (2 ≤ length options ≤ 4)%nat ∧ existsb optIsCorrect options = true.

(** What holds of every session the handlers store: it is a session of
    step 1 in progress, with the score, the percentage and the outcome
    the hook gives its answers. *)
Definition sessionScored (s : TestSession) : Prop :=
  step s = STEP_1 ∧ status s = IN_PROGRESS
  ∧ questions s ≠ []
  ∧ score s = correctAnswers s
  ∧ (percentage s
     == roundedPercentage (correctAnswers s) (length (questions s)))%Q
  ∧ (answers s ≠ [] →
     levelAndProgression (step s) (percentage s)
     = Some (levelAchieved s, canProceedToNext s))
  ∧ (answers s = [] → levelAchieved s = None ∧ canProceedToNext s = false).

Definition Scored (db : DB) : Prop :=
  ∀ s, s ∈ db_sessions db → sessionScored s.

(** What the handlers keep true of every stored session. *)
Definition sessionSound (s : TestSession) : Prop :=
  NoDup (questionId <$> answers s)
  ∧ (∀ a, a ∈ answers s → questionId a ∈ questions s)
  ∧ NoDup (questions s)
  ∧ (0 < length (questions s) ≤ 20)%nat
  ∧ score s = correctAnswers s
  ∧ (percentage s
     == roundedPercentage (correctAnswers s) (length (questions s)))%Q
  ∧ (status s = IN_PROGRESS ∨ status s = COMPLETED).

Definition Sound (db : DB) : Prop :=
  NoDup (question_id <$> db_questions db)
  ∧ ∀ s, s ∈ db_sessions db → sessionSound s.

(** The steps [getAvailableTests] lists for a level when [canTakeTest]
    is on. *)
Definition stepsOfLevel (l : option AssessmentLevel) : list Z :=
  match l with
  | None | Some A1 => [1]
  | Some A2 => [1; 2]
  | Some B1 => [2]
  | Some B2 => [2; 3]
  | Some C1 | Some C2 => [3]
  end.

(** * Properties *)

(** ** Collections *)

Section Collections.
Context {A : Type} (P : A → Prop) `{∀ x, Decision (P x)}.

Lemma findOne_nil : findOne P [] = None.
Proof. reflexivity. Qed.

Lemma findOne_cons x l :
  findOne P (x :: l) = if decide (P x) then Some x else findOne P l.
Proof.
  unfold findOne. cbn. destruct (decide (P x)); [done|].
  by destruct (list_find P l) as [[i y]|].
Qed.

Lemma findOne_Some l x : findOne P l = Some x → x ∈ l ∧ P x.
Proof.
  induction l as [|y l IH]; [done|]. rewrite findOne_cons.
  destruct (decide (P y)).
  - intros [= ->]. split; [left | done].
  - intros Hx. destruct (IH Hx). split; [by right | done].
Qed.

Lemma findOne_None l : findOne P l = None → ∀ x, x ∈ l → ¬ P x.
Proof.
  induction l as [|y l IH]; [intros _ x Hx; inversion Hx|].
  rewrite findOne_cons. destruct (decide (P y)); [done|].
  intros Hl x Hx. apply elem_of_cons in Hx as [->|Hx]; auto.
Qed.

Lemma findOne_None_filter l : findOne P l = None → filter P l = [].
Proof.
  induction l as [|y l IH]; [done|].
  rewrite findOne_cons. destruct (decide (P y)); [done|].
  intros Hl. rewrite filter_cons_False by done. auto.
Qed.

Lemma findOne_is_Some l x : x ∈ l → P x → is_Some (findOne P l).
Proof.
  intros Hx HP. destruct (findOne P l) eqn:E; [eauto|].
  destruct (findOne_None l E x Hx HP).
Qed.

(** With at most one match, [findOne] returns it. *)
Lemma findOne_unique l x :
  (length (filter P l) ≤ 1)%nat → x ∈ l → P x → findOne P l = Some x.
Proof.
  intros Hlen Hx HP.
  destruct (findOne_is_Some l x Hx HP) as [y Hy].
  rewrite Hy. f_equal.
  destruct (findOne_Some l y Hy) as [Hyl HPy].
  assert (Hxf : x ∈ filter P l) by (apply list_elem_of_filter; done).
  assert (Hyf : y ∈ filter P l) by (apply list_elem_of_filter; done).
  destruct (filter P l) as [|z [|z' l']]; [inversion Hxf | | simpl in Hlen; lia].
  apply list_elem_of_singleton in Hxf, Hyf. congruence.
Qed.
End Collections.

Section Store.
Context {A : Type} (key : A → nat).

Lemma store_fresh doc l :
  key doc ∉ key <$> l → store key doc l = l ++ [doc].
Proof.
  induction l as [|x l IH]; [done|]. cbn. intros Hk.
  apply not_elem_of_cons in Hk as [Hne Hk].
  rewrite bool_decide_eq_false_2 by done. by rewrite IH.
Qed.

(** Replacing a stored document leaves the others where they are. *)
Lemma store_replace doc l x :
  NoDup (key <$> l) → x ∈ l → key x = key doc →
  ∃ l1 l2, l = l1 ++ x :: l2 ∧ store key doc l = l1 ++ doc :: l2.
Proof.
  induction l as [|y l IH]; [intros _ Hx; inversion Hx|].
  intros Hnd Hx Hk. cbn in Hnd. apply NoDup_cons in Hnd as [Hy Hnd].
  apply elem_of_cons in Hx as [->|Hx].
  - exists [], l. cbn. by rewrite bool_decide_eq_true_2.
  - destruct (IH Hnd Hx Hk) as (l1 & l2 & -> & Hs).
    exists (y :: l1), l2. cbn. rewrite bool_decide_eq_false_2.
    + by rewrite Hs.
    + intros Heq. apply Hy. rewrite Heq, <- Hk.
      apply list_elem_of_fmap_2. apply elem_of_app. right. left.
Qed.

Lemma store_keys doc l :
  key doc ∈ key <$> l → key <$> store key doc l = key <$> l.
Proof.
  induction l as [|y l IH]; [intros Hx; inversion Hx|].
  cbn. intros Hx. case_bool_decide as Heq.
  - cbn. by rewrite Heq.
  - cbn. f_equal. apply IH. apply elem_of_cons in Hx as [?|?]; [congruence|done].
Qed.

(** After [save] the document is the one found under its id. *)
Lemma findOne_store doc l :
  findOne (λ x, key x = key doc) (store key doc l) = Some doc.
Proof.
  induction l as [|y l IH]; cbn [store].
  - rewrite findOne_cons. by rewrite decide_True.
  - case_bool_decide as Heq.
    + rewrite findOne_cons. by rewrite decide_True.
    + rewrite findOne_cons. by rewrite decide_False.
Qed.

Lemma findOne_store_ne doc l k :
  k ≠ key doc →
  findOne (λ x, key x = k) (store key doc l) = findOne (λ x, key x = k) l.
Proof.
  intros Hne. induction l as [|y l IH]; cbn [store].
  - rewrite findOne_cons. by rewrite decide_False.
  - case_bool_decide as Heq.
    + rewrite !findOne_cons. rewrite !decide_False by congruence. done.
    + rewrite !findOne_cons. by rewrite IH.
Qed.

Lemma elem_of_store doc l : doc ∈ store key doc l.
Proof.
  induction l as [|y l IH]; cbn; [left|].
  case_bool_decide; [left | by right].
Qed.
End Store.

Lemma store_other {A} (key : A → nat) doc l x y :
  NoDup (key <$> l) → x ∈ l → key x = key doc →
  y ∈ l → y ≠ x → y ∈ store key doc l.
Proof.
  intros Hnd Hx Hk Hy Hne.
  destruct (store_replace key doc l x Hnd Hx Hk) as (l1 & l2 & -> & ->).
  rewrite !elem_of_app, !elem_of_cons in *. tauto.
Qed.

Lemma elem_of_store_inv {A} (key : A → nat) doc l y :
  y ∈ store key doc l → y = doc ∨ y ∈ l.
Proof.
  induction l as [|x l IH]; cbn.
  - intros ->%list_elem_of_singleton. by left.
  - case_bool_decide; rewrite !elem_of_cons; [tauto|].
    intros [->|Hy]; [tauto|]. destruct (IH Hy); tauto.
Qed.

Lemma store_NoDup {A} (key : A → nat) doc l :
  NoDup (key <$> l) → NoDup (key <$> store key doc l).
Proof.
  intros Hnd. destruct (decide (key doc ∈ key <$> l)) as [Hin|Hin].
  - by rewrite store_keys.
  - rewrite store_fresh, fmap_app by done.
    apply NoDup_app. split_and!; [done| |apply NoDup_singleton].
    intros x Hx ->%list_elem_of_singleton. done.
Qed.

(** ** Numbers *)

Lemma Qltb_lt (x y : Q) : Qltb x y = true ↔ (x < y)%Q.
Proof.
  unfold Qltb. rewrite negb_true_iff, <- not_true_iff_false, Qle_bool_iff.
  split; [apply Qnot_le_lt | apply Qlt_not_le].
Qed.

Lemma Qltb_ge (x y : Q) : Qltb x y = false ↔ (y <= x)%Q.
Proof. unfold Qltb. by rewrite negb_false_iff, Qle_bool_iff. Qed.

Lemma Qgeb_ge (x y : Q) : Qgeb x y = true ↔ (y <= x)%Q.
Proof. apply Qle_bool_iff. Qed.

Lemma Qgeb_lt (x y : Q) : Qgeb x y = false ↔ (x < y)%Q.
Proof.
  unfold Qgeb. rewrite <- not_true_iff_false, Qle_bool_iff.
  split; [apply Qnot_le_lt | apply Qlt_not_le].
Qed.

#[global] Instance Qltb_proper : Proper (Qeq ==> Qeq ==> eq) Qltb.
Proof. intros x x' Hx y y' Hy. unfold Qltb. by rewrite Hx, Hy. Qed.

#[global] Instance Qgeb_proper : Proper (Qeq ==> Qeq ==> eq) Qgeb.
Proof. intros x x' Hx y y' Hy. unfold Qgeb. by rewrite Hx, Hy. Qed.




Lemma Qnat_0_percentage (t : nat) : (Qnat 0 / Qnat t * 100 == 0)%Q.
Proof. unfold Qdiv. change (Qnat 0) with 0%Q. by rewrite !Qmult_0_l. Qed.

Lemma roundedPercentage_0 (t : nat) : roundedPercentage 0 t = 0%Q.
Proof.
  unfold roundedPercentage. case_bool_decide; [|done].
  unfold Math_round. by rewrite Qnat_0_percentage.
Qed.


(** ** The [pre('save')] hook *)

Ltac hook :=
  unfold preSave, determineLevelAndProgression;
  cbn [answers set_score set_completed];
  repeat case_bool_decide;
  repeat match goal with
         | |- context [levelAndProgression ?st ?p] =>
             destruct (levelAndProgression st p) as [[? ?]|]
         end;
  try done.

Lemma preSave_session_id s : session_id (preSave s) = session_id s.
Proof. hook. Qed.

Lemma preSave_userId s : userId (preSave s) = userId s.
Proof. hook. Qed.

Lemma preSave_step s : step (preSave s) = step s.
Proof. hook. Qed.

Lemma preSave_status s : status (preSave s) = status s.
Proof. hook. Qed.

Lemma preSave_questions s : questions (preSave s) = questions s.
Proof. hook. Qed.

Lemma preSave_answers s : answers (preSave s) = answers s.
Proof. hook. Qed.

Lemma preSave_no_answers s : answers s = [] → preSave s = s.
Proof. intros Ha. unfold preSave. by rewrite Ha. Qed.

Lemma answered_length (s : TestSession) :
  answers s ≠ [] → (0 < length (answers s))%nat.
Proof. destruct (answers s); [done | cbn; lia]. Qed.

Lemma preSave_score s :
  answers s ≠ [] → score (preSave s) = correctAnswers s.
Proof. intros Ha%answered_length. hook. Qed.

Lemma preSave_percentage s :
  answers s ≠ [] →
  percentage (preSave s)
  = roundedPercentage (correctAnswers s) (length (questions s)).
Proof. intros Ha%answered_length. hook. Qed.

(** With an answer recorded and a step in 1..3, the hook stores the
    level and the flag of [determineLevelAndProgression]. *)
Lemma preSave_outcome s :
  answers s ≠ [] → 1 ≤ step s ≤ 3 →
  levelAndProgression (step s) (percentage (preSave s))
  = Some (levelAchieved (preSave s), canProceedToNext (preSave s)).
Proof.
  intros Ha%answered_length Hst.
  unfold preSave, determineLevelAndProgression.
  rewrite bool_decide_eq_true_2 by done. cbn [step percentage set_score].
  set (rp := roundedPercentage _ _).
  destruct (levelAndProgression (step s) rp) as [[l p]|] eqn:E; [by cbn|].
  unfold levelAndProgression in E.
  assert (step s = 1 ∨ step s = 2 ∨ step s = 3) as Hcases by lia.
  destruct Hcases as [H1|[H1|H1]];
    rewrite H1 in E; cbn in E;
    repeat match type of E with
           | context [Qltb ?a ?b] => destruct (Qltb a b)
           end; done.
Qed.


(** ** The handlers, case by case *)

Ltac handler :=
  cbn [mbind Except_bind mret Except_ret check found from_option fmap
       option_fmap option_map flip] in *.

Lemma activeSession_Some uid sid db s :
  activeSession uid sid db = Some s →
  s ∈ db_sessions db ∧ session_id s = sid ∧ userId s = uid
  ∧ status s = IN_PROGRESS.
Proof. intros Hs. apply findOne_Some in Hs. tauto. Qed.

Lemma submitAnswer_invalid db uid sid qid sel ts :
  ¬ (0 ≤ sel ∧ 0 ≤ ts) →
  submitAnswer db uid sid qid sel ts
  = Thrown (mkFailure 400 "Validation failed").
Proof.
  intros Hv. unfold submitAnswer.
  destruct (bool_decide (0 ≤ sel) && bool_decide (0 ≤ ts)) eqn:E; [|done].
  apply andb_true_iff in E as [?%bool_decide_eq_true ?%bool_decide_eq_true].
  tauto.
Qed.

Lemma submitAnswer_not_active db uid sid qid sel ts :
  0 ≤ sel → 0 ≤ ts → activeSession uid sid db = None →
  submitAnswer db uid sid qid sel ts
  = Thrown (mkFailure 404 "Test session not found or not active").
Proof.
  intros Hsel Hts Hs. unfold submitAnswer, activeSession in *.
  rewrite !bool_decide_eq_true_2 by done. handler. by rewrite Hs.
Qed.

Lemma submitAnswer_accepted db uid sid qid sel ts s q :
  0 ≤ sel → 0 ≤ ts →
  activeSession uid sid db = Some s →
  questionById qid db = Some q →
  qid ∈ questions s →
  let s' := withAnswer s (mkAnswer qid sel (optionIsCorrect q sel) ts) in
  submitAnswer db uid sid qid sel ts
  = Done (saveSession s' db,
          mkAnswerData qid (optionIsCorrect q sel) (length (answers s'))
            (length (questions s'))).
Proof.
  intros Hsel Hts Hs Hq Hin. unfold submitAnswer, activeSession, questionById in *.
  rewrite !bool_decide_eq_true_2 by done. handler.
  rewrite Hs. handler. rewrite Hq. handler.
  rewrite bool_decide_eq_true_2 by done. handler. done.
Qed.

(** Every accepted submission is of that form. *)
Lemma submitAnswer_Done db uid sid qid sel ts db' data :
  submitAnswer db uid sid qid sel ts = Done (db', data) →
  ∃ s q,
    0 ≤ sel ∧ 0 ≤ ts ∧ activeSession uid sid db = Some s
    ∧ questionById qid db = Some q ∧ qid ∈ questions s
    ∧ db' = saveSession
              (withAnswer s (mkAnswer qid sel (optionIsCorrect q sel) ts)) db
    ∧ data = mkAnswerData qid (optionIsCorrect q sel)
               (length (answers
                  (withAnswer s (mkAnswer qid sel (optionIsCorrect q sel) ts))))
               (length (questions
                  (withAnswer s (mkAnswer qid sel (optionIsCorrect q sel) ts)))).
Proof.
  intros Hd.
  destruct (decide (0 ≤ sel ∧ 0 ≤ ts)) as [[Hsel Hts]|Hv];
    [|by rewrite submitAnswer_invalid in Hd].
  destruct (activeSession uid sid db) as [s|] eqn:Hs;
    [|by rewrite submitAnswer_not_active in Hd].
  destruct (questionById qid db) as [q|] eqn:Hq.
  - destruct (decide (qid ∈ questions s)) as [Hin|Hin].
    + rewrite (submitAnswer_accepted _ _ _ _ _ _ s q) in Hd by done.
      injection Hd as <- <-. exists s, q. done.
    + unfold submitAnswer, activeSession, questionById in *.
      rewrite !bool_decide_eq_true_2 in Hd by done. handler.
      rewrite Hs, Hq in Hd. handler.
      by rewrite bool_decide_eq_false_2 in Hd.
  - unfold submitAnswer, activeSession, questionById in *.
    rewrite !bool_decide_eq_true_2 in Hd by done. handler.
    by rewrite Hs, Hq in Hd.
Qed.

Lemma completeTest_not_active db uid sid now :
  activeSession uid sid db = None →
  completeTest db uid sid now
  = Thrown (mkFailure 404 "Test session not found or not active").
Proof. intros Hs. unfold completeTest, activeSession in *. by rewrite Hs. Qed.

(** For a session in progress [completeTest] gets as far as the call
    of [calculateScore], which throws. *)
Lemma completeTest_active db uid sid now s :
  activeSession uid sid db = Some s →
  completeTest db uid sid now
  = Thrown (mkFailure 500 "Internal server error").
Proof. intros Hs. unfold completeTest, activeSession in *. by rewrite Hs. Qed.

Lemma completeTest_Thrown db uid sid now :
  ∃ e, completeTest db uid sid now = Thrown e.
Proof.
  destruct (activeSession uid sid db) as [s|] eqn:Hs.
  - rewrite (completeTest_active _ _ _ _ s Hs). by eexists.
  - rewrite completeTest_not_active by done. by eexists.
Qed.

(** So [completeTest] writes nothing. *)
Lemma handle_CompleteTest db uid sid now :
  handle db (CompleteTest uid sid now) = db.
Proof.
  cbn [handle]. by destruct (completeTest_Thrown db uid sid now) as [e ->].
Qed.

Lemma startTest_ineligible db uid st now u :
  1 ≤ st ≤ 3 → userById uid db = Some u → canTakeTestStep u st = false →
  startTest db uid st now
  = Thrown (mkFailure 403 "You are not eligible to take this test step").
Proof.
  intros Hst Hu He. unfold startTest, userById in *.
  rewrite (bool_decide_eq_true_2 (1 ≤ st ≤ 3)) by done. handler.
  rewrite Hu. handler. by rewrite He.
Qed.

Lemma startTest_resume db uid st now u s :
  1 ≤ st ≤ 3 → userById uid db = Some u → canTakeTestStep u st = true →
  existingSession uid st db = Some s →
  startTest db uid st now = Done (db, SessionInProgress s).
Proof.
  intros Hst Hu He Hs. unfold startTest, userById, existingSession in *.
  rewrite (bool_decide_eq_true_2 (1 ≤ st ≤ 3)) by done. handler.
  rewrite Hu. handler. rewrite He. handler. by rewrite Hs.
Qed.

Lemma startTest_no_questions db uid st now u :
  1 ≤ st ≤ 3 → userById uid db = Some u → canTakeTestStep u st = true →
  existingSession uid st db = None →
  questionPool st db = [] →
  startTest db uid st now
  = Thrown (mkFailure 404 "No questions available for this test step").
Proof.
  intros Hst Hu He Hs Hp.
  unfold startTest, userById, existingSession, questionPool in *.
  rewrite (bool_decide_eq_true_2 (1 ≤ st ≤ 3)) by done. handler.
  rewrite Hu. handler. rewrite He. handler. rewrite Hs, Hp. done.
Qed.

(** With questions at hand the new session is saved, which the schema
    allows at step 1 alone. *)
Lemma startTest_created db uid st now u :
  st = 1 → userById uid db = Some u → canTakeTestStep u st = true →
  existingSession uid st db = None →
  questionPool st db ≠ [] →
  let pool := take 20 (questionPool st db) in
  startTest db uid st now
  = Done (saveSession (newSession db uid st now) db,
          SessionStarted (newSessionId db)
            ((λ q, (question_id q, text <$> options q)) <$> pool)
            30 (length pool)).
Proof.
  intros -> Hu He Hs Hp.
  unfold startTest, userById, existingSession, questionPool in *.
  rewrite (bool_decide_eq_true_2 (1 ≤ 1 ≤ 3)) by done. handler.
  rewrite Hu. handler. rewrite He. handler. rewrite Hs.
  rewrite (bool_decide_eq_false_2 (length _ = 0%nat)).
  - handler. done.
  - destruct (filter _ (db_questions db)); [done|]. cbn. lia.
Qed.

Lemma startTest_refused db uid st now u :
  1 ≤ st ≤ 3 → st ≠ 1 →
  userById uid db = Some u → canTakeTestStep u st = true →
  existingSession uid st db = None →
  questionPool st db ≠ [] →
  startTest db uid st now = Thrown (mkFailure 500 "Internal server error").
Proof.
  intros Hst Hne Hu He Hs Hp.
  unfold startTest, userById, existingSession, questionPool in *.
  rewrite (bool_decide_eq_true_2 (1 ≤ st ≤ 3)) by done. handler.
  rewrite Hu. handler. rewrite He. handler. rewrite Hs.
  rewrite (bool_decide_eq_false_2 (length _ = 0%nat)).
  - handler. unfold stepAccepted. cbn [step].
    by rewrite bool_decide_eq_false_2.
  - destruct (filter _ (db_questions db)); [done|]. cbn. lia.
Qed.

(** What [startTest] does to the session collection. *)
Lemma startTest_sessions db uid st now :
  db_sessions (after db (startTest db uid st now)) = db_sessions db
  ∨ (existingSession uid st db = None ∧ st = 1 ∧ questionPool st db ≠ []
     ∧ db_sessions (after db (startTest db uid st now))
       = store session_id (newSession db uid st now) (db_sessions db)).
Proof.
  destruct (decide (1 ≤ st ≤ 3)) as [Hst|Hst].
  2: { left. unfold startTest.
       by rewrite (bool_decide_eq_false_2 (1 ≤ st ≤ 3)). }
  destruct (userById uid db) as [u|] eqn:Hu.
  2: { left. unfold startTest, userById in *.
       rewrite (bool_decide_eq_true_2 (1 ≤ st ≤ 3)) by done. handler. by rewrite Hu. }
  destruct (canTakeTestStep u st) eqn:He.
  2: { left. by rewrite (startTest_ineligible _ _ _ _ u). }
  destruct (existingSession uid st db) as [s|] eqn:Hs.
  { left. by rewrite (startTest_resume _ _ _ _ u s). }
  destruct (decide (questionPool st db = [])) as [Hp|Hp].
  { left. by rewrite (startTest_no_questions _ _ _ _ u). }
  destruct (decide (st = 1)) as [H1|H1].
  2: { left. by rewrite (startTest_refused _ _ _ _ u). }
  right. split_and!; [done..|]. by rewrite (startTest_created _ _ _ _ u).
Qed.

(** ** Deleting a question *)

Section DeleteDoc.
Context {A : Type} (key : A → nat).

Lemma elem_of_deleteDoc id l y : y ∈ deleteDoc key id l → y ∈ l.
Proof.
  induction l as [|x l IH]; cbn; [done|].
  case_bool_decide; rewrite !elem_of_cons; [tauto|].
  intros [->|Hy]; [tauto|]. right. by apply IH.
Qed.

Lemma deleteDoc_NoDup id l :
  NoDup (key <$> l) → NoDup (key <$> deleteDoc key id l).
Proof.
  induction l as [|x l IH]; cbn; [done|].
  intros [Hx Hnd]%NoDup_cons. case_bool_decide; [done|].
  cbn. apply NoDup_cons. split; [|by apply IH].
  intros (y & Hk & Hy%elem_of_deleteDoc)%list_elem_of_fmap.
  apply Hx. rewrite Hk. by apply list_elem_of_fmap_2.
Qed.

Lemma findOne_deleteDoc id l :
  NoDup (key <$> l) →
  findOne (λ x, key x = id) (deleteDoc key id l) = None.
Proof.
  induction l as [|x l IH]; [done|]. rewrite fmap_cons. cbn [deleteDoc].
  intros [Hx Hnd]%NoDup_cons. case_bool_decide as Hk.
  - destruct (findOne (λ y, key y = id) l) as [y|] eqn:E; [|done].
    apply findOne_Some in E as [Hy Hky]. destruct Hx.
    rewrite Hk, <- Hky. by apply list_elem_of_fmap_2.
  - rewrite findOne_cons, decide_False by done. by apply IH.
Qed.

Lemma findOne_deleteDoc_ne id k l :
  k ≠ id →
  findOne (λ x, key x = k) (deleteDoc key id l)
  = findOne (λ x, key x = k) l.
Proof.
  intros Hne. induction l as [|x l IH]; cbn [deleteDoc]; [done|].
  case_bool_decide as Hk.
  - by rewrite findOne_cons, decide_False by congruence.
  - by rewrite !findOne_cons, IH.
Qed.
End DeleteDoc.

Lemma deleteQuestion_Done db id db' :
  deleteQuestion db id = Done db' →
  is_Some (questionById id db)
  ∧ db' = mkDB (db_users db) (deleteDoc question_id id (db_questions db))
            (db_sessions db).
Proof.
  unfold deleteQuestion, questionById.
  destruct (findOne _ (db_questions db)) as [q|]; handler; [|done].
  intros [= <-]. eauto.
Qed.

(** What a deletion changes. *)
Lemma handle_DeleteQuestion db id :
  db_users (handle db (DeleteQuestion id)) = db_users db
  ∧ db_sessions (handle db (DeleteQuestion id)) = db_sessions db
  ∧ (handle db (DeleteQuestion id) = db
     ∨ db_questions (handle db (DeleteQuestion id))
       = deleteDoc question_id id (db_questions db)).
Proof.
  cbn [handle]. destruct (deleteQuestion db id) as [e|db'] eqn:E.
  - split_and!; [done..|by left].
  - apply deleteQuestion_Done in E as [_ ->]. split_and!; [done..|by right].
Qed.

(** ** Invariants of the session collection *)

Lemma newSessionId_fresh db : newSessionId db ∉ session_id <$> db_sessions db.
Proof. apply infinite_is_fresh. Qed.

Lemma Inv_no_sessions db : db_sessions db = [] → Inv db.
Proof.
  intros Hs. split.
  - unfold uniqueIds. rewrite Hs. constructor.
  - intros uid st. unfold activeSessions. rewrite Hs. cbn. lia.
Qed.

Lemma Inv_sessions db db' : db_sessions db' = db_sessions db → Inv db → Inv db'.
Proof.
  intros Hs [Hu Ho]. split.
  - unfold uniqueIds. by rewrite Hs.
  - intros uid st. unfold activeSessions. rewrite Hs. apply Ho.
Qed.

(** Saving a changed session keeps the invariants as long as its id,
    user and step are kept and it is not put back IN_PROGRESS. *)
Lemma Inv_replace db s s' :
  Inv db → s ∈ db_sessions db →
  session_id s' = session_id s → userId s' = userId s → step s' = step s →
  (status s' = IN_PROGRESS → status s = IN_PROGRESS) →
  Inv (saveSession s' db).
Proof.
  intros [Hu Ho] Hs Hid Huid Hst Hstatus.
  destruct (store_replace session_id s' (db_sessions db) s Hu Hs)
    as (l1 & l2 & Hl & Hstore); [done|].
  split.
  - unfold uniqueIds in *. cbn [db_sessions saveSession]. rewrite Hstore.
    rewrite Hl in Hu. rewrite fmap_app in *. cbn in *. by rewrite Hid.
  - intros uid st. specialize (Ho uid st). unfold activeSessions in *.
    cbn [db_sessions saveSession]. rewrite Hstore. rewrite Hl in Ho.
    rewrite filter_app, length_app in *.
    rewrite filter_cons in Ho. rewrite filter_cons.
    destruct (decide (userId s' = uid ∧ step s' = st ∧ status s' = IN_PROGRESS))
      as [(H1 & H2 & H3)|Hn].
    + rewrite decide_True in Ho; [done|]. repeat split; [congruence..|auto].
    + destruct (decide _) in Ho; cbn in Ho; lia.
Qed.

(** A new IN_PROGRESS session keeps them when its user has none at that
    step. *)
Lemma Inv_start db uid st now :
  Inv db → existingSession uid st db = None →
  Inv (saveSession (newSession db uid st now) db).
Proof.
  intros [Hu Ho] He.
  assert (Hstore : store session_id (newSession db uid st now) (db_sessions db)
                   = db_sessions db ++ [newSession db uid st now])
    by (apply store_fresh, newSessionId_fresh).
  split.
  - unfold uniqueIds in *. cbn [db_sessions saveSession]. rewrite Hstore.
    rewrite fmap_app. apply NoDup_app. split_and!; [done| |apply NoDup_singleton].
    intros x Hx Hx'. cbn in Hx'. apply list_elem_of_singleton in Hx' as ->.
    by apply (newSessionId_fresh db).
  - intros uid' st'. specialize (Ho uid' st'). unfold activeSessions in *.
    cbn [db_sessions saveSession]. rewrite Hstore, filter_app, length_app.
    rewrite filter_cons, filter_nil.
    destruct (decide _) as [(H1 & H2 & _)|_]; cbn in *; [|lia].
    subst uid' st'. unfold existingSession in He.
    rewrite (findOne_None_filter _ _ He). cbn. lia.
Qed.

Lemma handle_Inv db r : Inv db → Inv (handle db r).
Proof.
  intros HI.
  destruct r as [uid st now|uid sid qid sel ts|uid sid now|q|id];
    cbn [handle].
  - destruct (startTest_sessions db uid st now) as [Hs|(He & _ & _ & Hs)].
    + by apply (Inv_sessions db).
    + apply (Inv_sessions (saveSession (newSession db uid st now) db));
        [done | by apply Inv_start].
  - destruct (submitAnswer db uid sid qid sel ts) as [e|[db' data]] eqn:E;
      [done|]. cbn [after].
    apply submitAnswer_Done in E as (s & q & _ & _ & Hs & _ & _ & -> & _).
    apply activeSession_Some in Hs as (Hin & _).
    apply (Inv_replace db s); [done..| | | |]; unfold withAnswer.
    + by rewrite preSave_session_id.
    + by rewrite preSave_userId.
    + by rewrite preSave_step.
    + by rewrite preSave_status.
  - by destruct (completeTest_Thrown db uid sid now) as [e ->].
  - by apply (Inv_sessions db).
  - apply (Inv_sessions db); [|done].
    by destruct (handle_DeleteQuestion db id) as (_ & ? & _).
Qed.

Lemma run_Inv rs db : Inv db → Inv (run db rs).
Proof.
  revert db. induction rs as [|r rs IH]; intros db HI; [done|].
  cbn. apply IH. by apply handle_Inv.
Qed.

Lemma reachable_Inv db0 db : db_sessions db0 = [] → reachable db0 db → Inv db.
Proof. intros H0 [rs ->]. by apply run_Inv, Inv_no_sessions. Qed.

(** ** Stored documents after a handler *)

Lemma unique_key {A} (key : A → nat) (l : list A) x y :
  NoDup (key <$> l) → x ∈ l → y ∈ l → key x = key y → x = y.
Proof.
  induction l as [|z l IH]; [intros _ Hx; inversion Hx|].
  cbn. intros [Hz Hnd]%NoDup_cons Hx Hy Hk.
  apply elem_of_cons in Hx as [->|Hx]; apply elem_of_cons in Hy as [->|Hy].
  - done.
  - destruct Hz. rewrite Hk. by apply list_elem_of_fmap_2.
  - destruct Hz. rewrite <- Hk. by apply list_elem_of_fmap_2.
  - by apply IH.
Qed.

Lemma sessionById_saveSession s db :
  sessionById (session_id s) (saveSession s db) = Some s.
Proof. apply (findOne_store session_id). Qed.

Lemma userById_saveUser u db : userById (user_id u) (saveUser u db) = Some u.
Proof. apply (findOne_store user_id). Qed.

Lemma questionById_saveQuestion q db :
  questionById (question_id q) (saveQuestion q db) = Some q.
Proof. apply (findOne_store question_id). Qed.

Lemma userById_Some uid db u : userById uid db = Some u → user_id u = uid.
Proof. intros Hu. by apply findOne_Some in Hu as [_ ?]. Qed.

(** ** Answers *)

Lemma elem_of_upsertAnswer a l : a ∈ upsertAnswer a l.
Proof.
  unfold upsertAnswer.
  destruct (list_find _ l) as [[i x]|] eqn:E.
  - apply list_find_Some in E as (Hi & _).
    apply list_elem_of_lookup. exists i.
    apply list_lookup_insert_eq. by eapply lookup_lt_Some.
  - apply elem_of_app. right. left.
Qed.

Lemma length_upsertAnswer_new a l :
  questionId a ∉ questionId <$> l →
  length (upsertAnswer a l) = S (length l).
Proof.
  intros Hnew. unfold upsertAnswer.
  destruct (list_find _ l) as [[i x]|] eqn:E.
  - apply list_find_Some in E as (Hi & Hx & _). destruct Hnew.
    rewrite <- Hx. apply list_elem_of_fmap_2. by eapply list_elem_of_lookup_2.
  - rewrite length_app. cbn. lia.
Qed.

Lemma length_upsertAnswer_old a l :
  questionId a ∈ questionId <$> l →
  length (upsertAnswer a l) = length l.
Proof.
  intros (x & Hx & Hin)%list_elem_of_fmap. unfold upsertAnswer.
  destruct (list_find _ l) as [[i y]|] eqn:E.
  - apply length_insert.
  - apply list_find_None in E. rewrite Forall_forall in E.
    destruct (E x Hin). done.
Qed.

Lemma optionIsCorrect_out_of_range q sel :
  Z.of_nat (length (options q)) ≤ sel → optionIsCorrect q sel = false.
Proof.
  intros Hsel. unfold optionIsCorrect.
  rewrite lookup_ge_None_2; [done | lia].
Qed.

(** An accepted submission, as it is stored. *)
Lemma submitAnswer_recorded db uid sid qid sel ts s q :
  0 ≤ sel → 0 ≤ ts →
  activeSession uid sid db = Some s →
  questionById qid db = Some q →
  qid ∈ questions s →
  ∃ db' data s',
    submitAnswer db uid sid qid sel ts = Done (db', data)
    ∧ sessionById sid db' = Some s'
    ∧ status s' = IN_PROGRESS
    ∧ answers s'
      = upsertAnswer (mkAnswer qid sel (optionIsCorrect q sel) ts) (answers s)
    ∧ ad_isCorrect data = optionIsCorrect q sel
    ∧ ad_totalAnswered data = length (answers s').
Proof.
  intros Hsel Hts Hs Hq Hin.
  pose proof (activeSession_Some _ _ _ _ Hs) as (_ & Hid & _ & Hst).
  eexists _, _, _. split; [by apply (submitAnswer_accepted _ _ _ _ _ _ s q)|].
  split_and!.
  - set (s' := withAnswer s _).
    assert (session_id s' = sid) as <-
        by (unfold s', withAnswer; by rewrite preSave_session_id).
    apply sessionById_saveSession.
  - unfold withAnswer. by rewrite preSave_status.
  - unfold withAnswer. by rewrite preSave_answers.
  - done.
  - done.
Qed.

(** ** What the handlers store *)


Lemma newSession_scored db uid now :
  questionPool 1 db ≠ [] → sessionScored (newSession db uid 1 now).
Proof.
  intros Hp. unfold sessionScored, newSession. cbn. split_and!; try done.
  - destruct (questionPool 1 db); done.
  - unfold correctAnswers. cbn. by rewrite roundedPercentage_0.
Qed.

Lemma withAnswer_answered s a : answers (withAnswer s a) ≠ [].
Proof.
  unfold withAnswer. rewrite preSave_answers. cbn.
  intros Hn. pose proof (elem_of_upsertAnswer a (answers s)) as Hin.
  rewrite Hn in Hin. inversion Hin.
Qed.

Lemma withAnswer_scored s a : sessionScored s → sessionScored (withAnswer s a).
Proof.
  intros (Hst & Hs & Hq & _). pose proof (withAnswer_answered s a) as Ha.
  unfold withAnswer in *. rewrite preSave_answers in Ha.
  set (s1 := set_answers s (upsertAnswer a (answers s))) in *.
  assert (Hc : correctAnswers (preSave s1) = correctAnswers s1)
    by (unfold correctAnswers; by rewrite preSave_answers).
  unfold sessionScored. split_and!.
  - by rewrite preSave_step.
  - by rewrite preSave_status.
  - by rewrite preSave_questions.
  - by rewrite Hc, preSave_score.
  - by rewrite Hc, preSave_questions, preSave_percentage.
  - intros _. rewrite preSave_step. apply preSave_outcome; [done|].
    change (step s1) with (step s). rewrite Hst. unfold STEP_1. lia.
  - by rewrite preSave_answers.
Qed.

Lemma handle_Scored db r : Scored db → Scored (handle db r).
Proof.
  intros HS.
  destruct r as [uid st now|uid sid qid sel ts|uid sid now|q|id].
  - cbn [handle].
    destruct (startTest_sessions db uid st now) as [Hs|(_ & -> & Hp & Hs)];
      intros s Hin; rewrite Hs in Hin; [by apply HS|].
    apply elem_of_store_inv in Hin as [->|Hin]; [|by apply HS].
    by apply newSession_scored.
  - cbn [handle].
    destruct (submitAnswer db uid sid qid sel ts) as [e|[db' data]] eqn:E;
      [done|]. cbn [after].
    apply submitAnswer_Done in E as (s & q0 & _ & _ & Hs & _ & _ & -> & _).
    apply activeSession_Some in Hs as (Hin & _).
    intros x [->|Hx]%elem_of_store_inv; [|by apply HS].
    by apply withAnswer_scored, HS.
  - by rewrite handle_CompleteTest.
  - done.
  - destruct (handle_DeleteQuestion db id) as (_ & Hs & _).
    intros s Hin. rewrite Hs in Hin. by apply HS.
Qed.

Lemma run_Scored rs db : Scored db → Scored (run db rs).
Proof.
  revert db. induction rs as [|r rs IH]; intros db HS; [done|].
  cbn. apply IH. by apply handle_Scored.
Qed.

Lemma reachable_Scored db0 db :
  db_sessions db0 = [] → reachable db0 db → Scored db.
Proof.
  intros H0 [rs ->]. apply run_Scored. intros s Hs.
  rewrite H0 in Hs. inversion Hs.
Qed.

(** * The specification's claims, one by one *)

(** ** C1: the Stage-3 bands *)

(** The session model's own method has the three Stage-3 bands: below 25
    the level stays B2, from 25 up to 50 it is C1, from 50 on it is C2,
    and the progression flag is never set. *)
Lemma levelAndProgression_stage3 (p : Q) :
  ((p < 25)%Q → levelAndProgression STEP_3 p = Some (Some B2, false))
  ∧ ((25 <= p)%Q → (p < 50)%Q →
     levelAndProgression STEP_3 p = Some (Some C1, false))
  ∧ ((50 <= p)%Q → levelAndProgression STEP_3 p = Some (Some C2, false)).
Proof.
  unfold levelAndProgression, STEP_3. split_and!.
  - intros H1%Qltb_lt. by rewrite H1.
  - intros H1%Qltb_ge H2%Qltb_lt. by rewrite H1, H2.
  - intros H1. assert (H2 : (25 <= p)%Q) by lra.
    apply Qltb_ge in H1, H2. by rewrite H1, H2.
Qed.

(** C1.  The session model's method has the claim's three bands, but
    no Stage-3 attempt ever gets an outcome.  A user at B2 with 20
    questions of step 3 passes the gate, and [startTest] is answered
    with 500, because the schema refuses the new session's step; in
    every state reached from a database without sessions all sessions
    are of step 1 and in progress.  [completeTest] never completes: for
    a session in progress it is answered with 500 (the call of
    [calculateScore], which the model does not define) and it writes
    nothing.  And the bands the controller would apply to the user,
    lines 230-276, put a Stage-3 percentage from 50 up to 75 at C1,
    where the model's method stores C2. *)
Theorem C1_stage3_outcome_diverges :
  let db := Scenario.initial (Some B2) 20 3 in
  let u := mkUser 1 (Some B2) true None in
  (userById 1 db = Some u ∧ canTakeTestStep u STEP_3 = true
   ∧ length (questionPool STEP_3 db) = 20%nat)
  ∧ startTest db 1 STEP_3 1000
    = Thrown (mkFailure 500 "Internal server error")
  ∧ (∀ db0 db', db_sessions db0 = [] → reachable db0 db' →
       ∀ s, s ∈ db_sessions db' → step s = STEP_1 ∧ status s = IN_PROGRESS)
  ∧ (∀ db' uid sid now s,
       activeSession uid sid db' = Some s →
       completeTest db' uid sid now
       = Thrown (mkFailure 500 "Internal server error"))
  ∧ (∀ db' uid sid now, handle db' (CompleteTest uid sid now) = db')
  ∧ (∀ u' s,
       step s = STEP_3 → (50 <= percentage s)%Q → (percentage s < 75)%Q →
       levelAndProgression (step s) (percentage s) = Some (Some C2, false)
       ∧ currentLevel (updateLevel u' s) = Some C1).
Proof.
  intros db u. split; [by vm_compute|]. split; [by vm_compute|]. split_and!.
  - intros db0 db' H0 Hr s Hs.
    destruct (reachable_Scored db0 db' H0 Hr s Hs) as (? & ? & _). done.
  - intros db' uid sid now s Hs. by apply (completeTest_active _ _ _ _ s).
  - apply handle_CompleteTest.
  - intros u' s Hst H50 H75. split.
    + rewrite Hst. by apply levelAndProgression_stage3.
    + unfold updateLevel. rewrite Hst. unfold STEP_3.
      apply Qgeb_lt in H75. apply Qgeb_ge in H50. by rewrite H75, H50.
Qed.

(** ** C2: answers after the time budget *)

(** C2, as stated, fails: the session started at 1000 with a budget of
    30 minutes is expired at 1801001 and still IN_PROGRESS, and
    [submitAnswer] accepts and records the answer. *)
Lemma C2_expired_answer_accepted :
  let db := Scenario.stage1_started in
  activeSession 1 0 db = Some Scenario.startedSession
  ∧ isExpired Scenario.startedSession 1801001 = true
  ∧ response (submitAnswer db 1 0 100 0 5) = Done (mkAnswerData 100 true 1 20)
  ∧ answers <$> sessionById 0 (after db (submitAnswer db 1 0 100 0 5))
    = Some [mkAnswer 100 0 true 5].
Proof. vm_compute. done. Qed.

(** C2, amended.  [submitAnswer] makes no expiry check: for an
    IN_PROGRESS session whose time budget has elapsed at the server
    clock, a valid submission for a stored question of the session is
    accepted and recorded, and the session stays IN_PROGRESS. *)
Theorem C2_no_expiry_check db uid sid qid sel ts s q now :
  0 ≤ sel → 0 ≤ ts →
  activeSession uid sid db = Some s →
  questionById qid db = Some q →
  qid ∈ questions s →
  isExpired s now = true →
  ∃ db' data s',
    submitAnswer db uid sid qid sel ts = Done (db', data)
    ∧ sessionById sid db' = Some s'
    ∧ status s' = IN_PROGRESS
    ∧ mkAnswer qid sel (optionIsCorrect q sel) ts ∈ answers s'.
Proof.
  intros Hsel Hts Hs Hq Hin _.
  destruct (submitAnswer_recorded db uid sid qid sel ts s q)
    as (db' & data & s' & Hd & Hs' & Hst & Ha & _); [done..|].
  exists db', data, s'. split_and!; [done..|].
  rewrite Ha. apply elem_of_upsertAnswer.
Qed.

Lemma C2_no_expiry_check_witness :
  let db := Scenario.stage1_started in
  let s := Scenario.startedSession in
  let q := mkQuestion 100 1 (Scenario.choice 4 0) true in
  (0 ≤ 0 ∧ 0 ≤ 5 ∧ activeSession 1 0 db = Some s
   ∧ questionById 100 db = Some q ∧ 100%nat ∈ questions s
   ∧ isExpired s 1801001 = true)
  ∧ ∃ db' data s',
      submitAnswer db 1 0 100 0 5 = Done (db', data)
      ∧ sessionById 0 db' = Some s'
      ∧ status s' = IN_PROGRESS
      ∧ mkAnswer 100 0 (optionIsCorrect q 0) 5 ∈ answers s'.
Proof.
  assert (Hin : 100%nat ∈ questions Scenario.startedSession)
    by (vm_compute; left).
  split.
  - split_and!; [lia | lia | by vm_compute.. | done | by vm_compute].
  - apply (C2_no_expiry_check Scenario.stage1_started 1 0 100 0 5
             Scenario.startedSession _ 1801001);
      [lia | lia | by vm_compute | by vm_compute | done | by vm_compute].
Defined.

(** ** C3: finalizing twice *)

(** C3, as stated, fails: the stored session is COMPLETED with its
    outcome, and [completeTest] is answered with 404 instead of that
    outcome. *)
Lemma C3_second_finalize_rejected :
  let db := Scenario.archived in
  (λ s, (status s, score s, percentage s, levelAchieved s))
    <$> sessionById 0 db = Some (COMPLETED, 15%nat, 75%Q, Some A2)
  ∧ completeTest db 1 0 6000
    = Thrown (mkFailure 404 "Test session not found or not active").
Proof. vm_compute. done. Qed.

(** C3, amended.  Calling [completeTest] for a session that is already
    COMPLETED fails with 404 'Test session not found or not active';
    nothing is recomputed and neither the session nor the user is
    written. *)
Theorem C3_completed_not_finalized_again db uid sid now s :
  uniqueIds db → s ∈ db_sessions db → session_id s = sid →
  status s = COMPLETED →
  completeTest db uid sid now
  = Thrown (mkFailure 404 "Test session not found or not active")
  ∧ handle db (CompleteTest uid sid now) = db.
Proof.
  intros Hu Hs Hid Hst.
  assert (Hn : activeSession uid sid db = None).
  { destruct (activeSession uid sid db) as [x|] eqn:E; [|done].
    apply activeSession_Some in E as (Hx & Hxid & _ & Hxst).
    assert (x = s) as -> by (apply (unique_key session_id (db_sessions db));
                             [done..|congruence]).
    congruence. }
  cbn [handle]. by rewrite completeTest_not_active.
Qed.

Lemma C3_completed_not_finalized_again_witness :
  let db := Scenario.archived in
  let s := Scenario.stored 0 db in
  (uniqueIds db ∧ s ∈ db_sessions db ∧ session_id s = 0%nat
   ∧ status s = COMPLETED)
  ∧ completeTest db 1 0 6000
    = Thrown (mkFailure 404 "Test session not found or not active")
  ∧ handle db (CompleteTest 1 0 6000) = db.
Proof.
  assert (Hu : uniqueIds Scenario.archived)
    by (vm_compute; apply NoDup_singleton).
  assert (Hs : Scenario.stored 0 Scenario.archived
               ∈ db_sessions Scenario.archived)
    by (vm_compute; left).
  split.
  - split_and!; [done | done | by vm_compute..].
  - apply (C3_completed_not_finalized_again Scenario.archived
             1 0 6000 (Scenario.stored 0 Scenario.archived));
      [done | done | by vm_compute..].
Defined.

(** ** C4: one IN_PROGRESS session per user and step *)

Lemma canTakeTestStep_step u st : canTakeTestStep u st = true → 1 ≤ st ≤ 3.
Proof.
  unfold canTakeTestStep. destruct (negb _); [done|].
  destruct st as [|p|p]; try done.
  destruct p as [[?|?|]|[?|?|]|]; try done; lia.
Qed.



(** The resume, run: a second [startTest] returns the session of the
    first. *)
Example C4_resume_example :
  startTest Scenario.stage1_started 1 1 2000
  = Done (Scenario.stage1_started, SessionInProgress Scenario.startedSession).
Proof. by vm_compute. Qed.

(** ** C5: where the correctness of an answer comes from *)

(** C5, as stated, fails: after the session was started, the correct
    option of question 100 is moved from index 0 to index 1; the same
    submission that is correct before the edit is recorded as incorrect
    after it. *)
Lemma C5_edit_changes_correctness :
  let db := Scenario.stage1_started in
  let db' := saveQuestion Scenario.edited db in
  db_sessions db' = db_sessions db
  ∧ response (submitAnswer db 1 0 100 0 5) = Done (mkAnswerData 100 true 1 20)
  ∧ response (submitAnswer db' 1 0 100 0 5)
    = Done (mkAnswerData 100 false 1 20)
  ∧ answers <$> sessionById 0 (after db' (submitAnswer db' 1 0 100 0 5))
    = Some [mkAnswer 100 0 false 5].
Proof. vm_compute. done. Qed.

Lemma optionIsCorrect_options q q' sel :
  options q' = options q → optionIsCorrect q' sel = optionIsCorrect q sel.
Proof. unfold optionIsCorrect. by intros ->. Qed.

(** C5, amended.  The correctness [submitAnswer] records is read from
    the question as it is stored when the answer is submitted: it is
    the [isCorrect] flag of the option at [selectedOption] (false when
    there is none), so after a write to the question the same
    submission is judged by the written options.  Overwriting the
    question without changing its options, as deactivating it does,
    leaves the outcome of the submission as it was; and a later write
    to the question collection leaves the sessions, and with them the
    recorded correctness, as they are. *)
Theorem C5_correctness_from_stored_question db uid sid qid sel ts db' data :
  submitAnswer db uid sid qid sel ts = Done (db', data) →
  ∃ q,
    questionById qid db = Some q
    ∧ ad_isCorrect data = optionIsCorrect q sel
    ∧ (∀ q', question_id q' = qid →
         ∃ db2 data2,
           submitAnswer (saveQuestion q' db) uid sid qid sel ts
           = Done (db2, data2)
           ∧ ad_isCorrect data2 = optionIsCorrect q' sel)
    ∧ (∀ q', question_id q' = qid → options q' = options q →
         submitAnswer (saveQuestion q' db) uid sid qid sel ts
         = Done (saveQuestion q' db', data))
    ∧ (∀ q', db_sessions (saveQuestion q' db') = db_sessions db').
Proof.
  intros (s & q & Hsel & Hts & Hs & Hq & Hin & -> & ->)%submitAnswer_Done.
  assert (Hq' : ∀ q', question_id q' = qid →
                  questionById qid (saveQuestion q' db) = Some q')
    by (intros q' <-; apply questionById_saveQuestion).
  exists q. split_and!; [done..| | |done].
  - intros q' Hid. eexists _, _. split.
    + by apply (submitAnswer_accepted _ uid sid qid sel ts s q'); auto.
    + done.
  - intros q' Hid Hopt.
    rewrite (submitAnswer_accepted _ uid sid qid sel ts s q'); auto.
    by rewrite (optionIsCorrect_options q q').
Qed.

Lemma C5_correctness_from_stored_question_witness :
  let db := Scenario.stage1_started in
  let r := submitAnswer db 1 0 100 0 5 in
  r = Done (after db r, mkAnswerData 100 true 1 20)
  ∧ ∃ q,
      questionById 100 db = Some q
      ∧ ad_isCorrect (mkAnswerData 100 true 1 20) = optionIsCorrect q 0
      ∧ (∀ q', question_id q' = 100%nat →
           ∃ db2 data2,
             submitAnswer (saveQuestion q' db) 1 0 100 0 5 = Done (db2, data2)
             ∧ ad_isCorrect data2 = optionIsCorrect q' 0)
      ∧ (∀ q', question_id q' = 100%nat → options q' = options q →
           submitAnswer (saveQuestion q' db) 1 0 100 0 5
           = Done (saveQuestion q' (after db r), mkAnswerData 100 true 1 20))
      ∧ (∀ q', db_sessions (saveQuestion q' (after db r))
               = db_sessions (after db r)).
Proof.
  assert (Hr : submitAnswer Scenario.stage1_started 1 0 100 0 5
               = Done (after Scenario.stage1_started
                         (submitAnswer Scenario.stage1_started 1 0 100 0 5),
                       mkAnswerData 100 true 1 20))
    by (by vm_compute).
  split; [done|].
  by apply (C5_correctness_from_stored_question
              Scenario.stage1_started 1 0 100 0 5).
Defined.

(** Deactivating the question leaves the same submission correct. *)
Example C5_deactivation_example :
  response (submitAnswer (saveQuestion Scenario.deactivated
                            Scenario.stage1_started) 1 0 100 0 5)
  = Done (mkAnswerData 100 true 1 20).
Proof. by vm_compute. Qed.

(** ** C6: score, percentage and outcome of a session *)




(** Stage 1, 20 questions, 15 answered correctly and 5 never answered:
    the attempt stores score 15, percentage 75, level A2 and the
    progression flag, and stays in progress. *)
Example C6_unanswered_count_as_incorrect :
  (λ s, (status s, length (questions s), length (answers s), score s,
         percentage s, levelAchieved s, canProceedToNext s))
    <$> sessionById 0 Scenario.stage1_15_of_20
  = Some (IN_PROGRESS, 20%nat, 15%nat, 15%nat, 75%Q, Some A2, true).
Proof. by vm_compute. Qed.

(** ** C7: the question draw *)

(** C7, as stated, fails: with 3 active questions for the step,
    [startTest] starts a session with those 3 questions. *)
Lemma C7_small_pool_accepted :
  let db := Scenario.initial None 3 1 in
  let r := startTest db 1 1 1000 in
  length (questionPool 1 db) = 3%nat
  ∧ (∃ qs, response r = Done (SessionStarted 0 qs 30 3))
  ∧ (λ s, (status s, questions s)) <$> sessionById 0 (after db r)
    = Some (IN_PROGRESS, [100; 101; 102]%nat).
Proof. split_and!; [by vm_compute | by eexists | by vm_compute]. Qed.

(** C7, amended.  For a user who passes [canTakeTestStep] and has no
    session in progress at the step, [startTest] fails for want of
    questions, with 404 'No questions available for this test step',
    exactly when the step has no active question; at step 1, with at
    least one, it draws the first 20 active questions of the step, or
    all of them when there are fewer, and starts the session with
    them. *)
Theorem C7_draws_up_to_20_questions db uid st now u :
  userById uid db = Some u → canTakeTestStep u st = true →
  existingSession uid st db = None →
  let pool := questionPool st db in
  (startTest db uid st now
   = Thrown (mkFailure 404 "No questions available for this test step")
   ↔ pool = [])
  ∧ (pool ≠ [] → st = STEP_1 →
     ∃ db' qs s',
       startTest db uid st now
       = Done (db', SessionStarted (newSessionId db) qs 30
                      (min 20 (length pool)))
       ∧ sessionById (newSessionId db) db' = Some s'
       ∧ status s' = IN_PROGRESS
       ∧ step s' = st
       ∧ questions s' = question_id <$> take 20 pool
       ∧ length (questions s') = min 20 (length pool)).
Proof.
  intros Hu He Hs pool.
  pose proof (canTakeTestStep_step _ _ He) as Hst.
  split.
  - split; [|by apply (startTest_no_questions _ _ _ _ u)].
    intros Hd. destruct (decide (pool = [])) as [Hp|Hp]; [done|].
    destruct (decide (st = 1)) as [H1|H1].
    + by rewrite (startTest_created _ _ _ _ u) in Hd.
    + by rewrite (startTest_refused _ _ _ _ u) in Hd.
  - intros Hp H1.
    exists (saveSession (newSession db uid st now) db),
      ((λ q, (question_id q, text <$> options q)) <$> take 20 pool),
      (newSession db uid st now).
    split_and!; try done.
    + rewrite (startTest_created _ _ _ _ u) by done.
      by rewrite length_take.
    + apply (sessionById_saveSession (newSession db uid st now)).
    + cbn. by rewrite length_fmap, length_take.
Qed.

Lemma C7_draws_up_to_20_questions_witness :
  let db := Scenario.initial None 3 1 in
  let u := mkUser 1 None true None in
  let pool := questionPool 1 db in
  (userById 1 db = Some u ∧ canTakeTestStep u 1 = true
   ∧ existingSession 1 1 db = None)
  ∧ (startTest db 1 1 1000
     = Thrown (mkFailure 404 "No questions available for this test step")
     ↔ pool = [])
  ∧ (pool ≠ [] → 1 = STEP_1 →
     ∃ db' qs s',
       startTest db 1 1 1000
       = Done (db', SessionStarted (newSessionId db) qs 30
                      (min 20 (length pool)))
       ∧ sessionById (newSessionId db) db' = Some s'
       ∧ status s' = IN_PROGRESS
       ∧ step s' = 1
       ∧ questions s' = question_id <$> take 20 pool
       ∧ length (questions s') = min 20 (length pool)).
Proof.
  split; [by vm_compute|].
  by apply (C7_draws_up_to_20_questions (Scenario.initial None 3 1) 1 1 1000
              (mkUser 1 None true None)).
Defined.

(** With no active question the draw fails. *)
Example C7_empty_pool_example :
  startTest (Scenario.initial None 0 1) 1 1 1000
  = Thrown (mkFailure 404 "No questions available for this test step").
Proof. by vm_compute. Qed.

(** ** C8: the gate of stages 2 and 3 *)

(** C8, as stated, fails: for a user at A2 whose [canTakeTest] flag is
    off [canTakeTestStep] refuses stage 2 (and, at B2, stage 3), and
    [startTest] answers 403. *)
Lemma C8_lockout_blocks_later_stages :
  userById 1 Scenario.locked = Some Scenario.lockedA2
  ∧ currentLevel Scenario.lockedA2 = Some A2
  ∧ canTakeTestStep Scenario.lockedA2 STEP_2 = false
  ∧ startTest Scenario.locked 1 STEP_2 6000
    = Thrown (mkFailure 403 "You are not eligible to take this test step")
  ∧ currentLevel Scenario.lockedB2 = Some B2
  ∧ canTakeTestStep Scenario.lockedB2 STEP_3 = false.
Proof. by vm_compute. Qed.

(** C8, amended.  [canTakeTestStep] allows stage 2 exactly when the
    user's [canTakeTest] flag is on and the level is A2, B1 or B2, and
    stage 3 exactly when the flag is on and the level is B2, C1 or C2:
    the flag gates every stage. *)
Theorem C8_later_stages_need_flag_and_level (u : User) :
  (canTakeTestStep u STEP_2 = true
   ↔ canTakeTest u = true
     ∧ currentLevel u ∈ [Some A2; Some B1; Some B2])
  ∧ (canTakeTestStep u STEP_3 = true
     ↔ canTakeTest u = true
       ∧ currentLevel u ∈ [Some B2; Some C1; Some C2]).
Proof.
  unfold canTakeTestStep, levelIs, STEP_2, STEP_3.
  destruct (canTakeTest u); cbn [negb]; [|intuition congruence].
  rewrite !orb_true_iff, !bool_decide_eq_true, !elem_of_cons.
  split; (split; [intros [[?|?]|?] | intros [_ [?|[?|[?|H]]]]]);
    try (by inversion H); auto.
Qed.

(** ** C9: the band boundaries of stage 1 *)




(** The two boundaries, run through the handlers: after 5 correct
    answers of 20 the stored session has exactly 25 percent, level A1
    and no progression; after 15 of 20 exactly 75 percent, level A2 and
    the progression flag. *)
Example C9_exactly_25_percent :
  (λ s, (step s, score s, percentage s, levelAchieved s, canProceedToNext s))
    <$> sessionById 0 Scenario.stage1_5_of_20
  = Some (1, 5%nat, 25%Q, Some A1, false).
Proof. by vm_compute. Qed.

Example C9_exactly_75_percent :
  (λ s, (step s, score s, percentage s, levelAchieved s, canProceedToNext s))
    <$> sessionById 0 Scenario.stage1_15_of_20
  = Some (1, 15%nat, 75%Q, Some A2, true).
Proof. by vm_compute. Qed.

(** The pure boundaries of [determineLevelAndProgression]. *)
Example levelAndProgression_boundaries :
  levelAndProgression STEP_1 25 = Some (Some A1, false)
  ∧ levelAndProgression STEP_1 75 = Some (Some A2, true)
  ∧ levelAndProgression STEP_1 (2499 # 100) = Some (None, false)
  ∧ levelAndProgression STEP_1 (7499 # 100) = Some (Some A2, false).
Proof. by vm_compute. Qed.

(** ** C10: an option index out of range *)

(** C10.  A submission whose [selectedOption] is at or beyond the end of
    the question's option list passes validation and is accepted: the
    answer is stored with [isCorrect] false, the response reports it as
    incorrect, and it counts in [totalAnswered] like any other answer
    (one more answer if the question had none, the same number if it
    replaces one). *)
Theorem C10_out_of_range_option_recorded db uid sid qid sel ts s q :
  0 ≤ ts →
  activeSession uid sid db = Some s →
  questionById qid db = Some q →
  qid ∈ questions s →
  Z.of_nat (length (options q)) ≤ sel →
  ∃ db' data s',
    submitAnswer db uid sid qid sel ts = Done (db', data)
    ∧ ad_isCorrect data = false
    ∧ sessionById sid db' = Some s'
    ∧ mkAnswer qid sel false ts ∈ answers s'
    ∧ ad_totalAnswered data = length (answers s')
    ∧ (qid ∉ questionId <$> answers s →
       length (answers s') = S (length (answers s)))
    ∧ (qid ∈ questionId <$> answers s →
       length (answers s') = length (answers s)).
Proof.
  intros Hts Hs Hq Hin Hsel.
  destruct (submitAnswer_recorded db uid sid qid sel ts s q)
    as (db' & data & s' & Hd & Hs' & _ & Ha & Hc & Hn); [lia | done..|].
  rewrite (optionIsCorrect_out_of_range q sel Hsel) in Ha, Hc.
  exists db', data, s'. rewrite Ha in *. split_and!; [done..| | | |].
  - apply elem_of_upsertAnswer.
  - done.
  - intros Hnew. by apply length_upsertAnswer_new.
  - intros Hold. by apply length_upsertAnswer_old.
Qed.

Lemma C10_out_of_range_option_recorded_witness :
  let db := Scenario.stage1_started in
  let s := Scenario.startedSession in
  let q := mkQuestion 100 1 (Scenario.choice 4 0) true in
  (0 ≤ 5 ∧ activeSession 1 0 db = Some s ∧ questionById 100 db = Some q
   ∧ 100%nat ∈ questions s ∧ Z.of_nat (length (options q)) ≤ 5)
  ∧ ∃ db' data s',
      submitAnswer db 1 0 100 5 5 = Done (db', data)
      ∧ ad_isCorrect data = false
      ∧ sessionById 0 db' = Some s'
      ∧ mkAnswer 100 5 false 5 ∈ answers s'
      ∧ ad_totalAnswered data = length (answers s')
      ∧ (100%nat ∉ questionId <$> answers s →
         length (answers s') = S (length (answers s)))
      ∧ (100%nat ∈ questionId <$> answers s →
         length (answers s') = length (answers s)).
Proof.
  assert (Hin : 100%nat ∈ questions Scenario.startedSession)
    by (vm_compute; left).
  split.
  - split_and!; [lia | by vm_compute.. | done | by vm_compute].
  - apply (C10_out_of_range_option_recorded Scenario.stage1_started
             1 0 100 5 5 Scenario.startedSession
             (mkQuestion 100 1 (Scenario.choice 4 0) true));
      [lia | by vm_compute | by vm_compute | done | by vm_compute].
Defined.

(** Index 5 for a 4-option question: accepted, recorded as incorrect,
    counted. *)
Example C10_index_5_of_4_options :
  let db := Scenario.stage1_started in
  let r := submitAnswer db 1 0 100 5 5 in
  response r = Done (mkAnswerData 100 false 1 20)
  ∧ answers <$> sessionById 0 (after db r) = Some [mkAnswer 100 5 false 5].
Proof. by vm_compute. Qed.

(** * Further properties of the engine *)

(** ** Time: [isExpired] and [getRemainingTime] *)

Lemma ceil_minutes (ms : Z) :
  Qceiling (inject_Z ms / inject_Z (60 * 1000)) = - (- ms / 60000).
Proof.
  change (60 * 1000) with 60000.
  unfold Qceiling, Qfloor, Qdiv, Qmult, Qinv, Qopp, inject_Z. cbn.
  f_equal. f_equal. lia.
Qed.

Lemma getRemainingTime_running s now :
  status s ≠ COMPLETED →
  getRemainingTime s now = Z.max 0 (- (- (expiredTime s - now) / 60000)).
Proof.
  intros Hst. unfold getRemainingTime, expiredTime.
  rewrite bool_decide_eq_false_2 by done. cbv zeta. by rewrite ceil_minutes.
Qed.

Lemma isExpired_running s now :
  status s ≠ COMPLETED →
  isExpired s now = bool_decide (expiredTime s < now).
Proof.
  intros Hst. unfold isExpired, expiredTime.
  by rewrite bool_decide_eq_false_2.
Qed.

(** The two methods agree except at the very instant the budget ends:
    a session is expired when the clock is strictly past that instant,
    its remaining time is 0 from that instant on (and whenever it is
    COMPLETED), so an expired session has no time left, and at the
    instant itself a running session has 0 minutes left without being
    expired. *)
Theorem expiry_and_remaining_time s now :
  (isExpired s now = true ↔ status s ≠ COMPLETED ∧ expiredTime s < now)
  ∧ (getRemainingTime s now = 0
     ↔ status s = COMPLETED ∨ expiredTime s ≤ now)
  ∧ (isExpired s now = true → getRemainingTime s now = 0)
  ∧ (getRemainingTime s now = 0 ∧ isExpired s now = false
     ↔ status s = COMPLETED ∨ now = expiredTime s).
Proof.
  destruct (decide (status s = COMPLETED)) as [Hc|Hc].
  - unfold isExpired, getRemainingTime.
    rewrite !bool_decide_eq_true_2 by done. intuition congruence.
  - rewrite getRemainingTime_running, isExpired_running by done.
    rewrite bool_decide_eq_true, bool_decide_eq_false.
    set (d := expiredTime s - now).
    assert (Hd : expiredTime s = d + now) by (unfold d; lia).
    rewrite Hd. clearbody d. clear Hd.
    pose proof (Z.div_mod (- d) 60000 ltac:(lia)) as Hdm.
    pose proof (Z.mod_pos_bound (- d) 60000 ltac:(lia)) as Hmod.
    split_and!; try split; intros; try lia; try done.
    all: try (destruct H; [congruence|lia]).
Qed.

(** While the budget lasts, the remaining time is the remaining
    milliseconds rounded up to whole minutes: a started minute counts. *)
Theorem remaining_time_rounds_up s now :
  status s ≠ COMPLETED → now < expiredTime s →
  (getRemainingTime s now - 1) * 60000
  < expiredTime s - now ≤ getRemainingTime s now * 60000.
Proof.
  intros Hc Hnow. rewrite getRemainingTime_running by done.
  set (d := expiredTime s - now). assert (0 < d) by (unfold d; lia).
  clearbody d.
  pose proof (Z.div_mod (- d) 60000 ltac:(lia)) as Hdm.
  pose proof (Z.mod_pos_bound (- d) 60000 ltac:(lia)) as Hmod.
  lia.
Qed.

Lemma remaining_time_rounds_up_witness :
  let s := Scenario.startedSession in
  (status s ≠ COMPLETED ∧ 61000 < expiredTime s)
  ∧ (getRemainingTime s 61000 - 1) * 60000
    < expiredTime s - 61000 ≤ getRemainingTime s 61000 * 60000.
Proof.
  assert (H1 : status Scenario.startedSession ≠ COMPLETED) by done.
  assert (H2 : 61000 < expiredTime Scenario.startedSession) by (by vm_compute).
  split; [done|].
  by apply (remaining_time_rounds_up Scenario.startedSession 61000).
Defined.

(** The remaining time never grows as the clock advances, is never
    negative, and from the start on it is at most the time limit. *)
Theorem remaining_time_decreases s now now' :
  startTime s ≤ now → now ≤ now' →
  0 ≤ getRemainingTime s now' ≤ getRemainingTime s now
  ∧ getRemainingTime s now ≤ Z.max 0 (timeLimit s).
Proof.
  intros Hstart Hnow.
  destruct (decide (status s = COMPLETED)) as [Hc|Hc].
  - unfold getRemainingTime. rewrite !bool_decide_eq_true_2 by done. lia.
  - rewrite !getRemainingTime_running by done. unfold expiredTime.
    set (e := startTime s + timeLimit s * 60 * 1000).
    pose proof (Z.div_mod (- (e - now)) 60000 ltac:(lia)).
    pose proof (Z.mod_pos_bound (- (e - now)) 60000 ltac:(lia)).
    pose proof (Z.div_mod (- (e - now')) 60000 ltac:(lia)).
    pose proof (Z.mod_pos_bound (- (e - now')) 60000 ltac:(lia)).
    assert (e - now ≤ timeLimit s * 60000) by (unfold e; lia).
    lia.
Qed.

Lemma remaining_time_decreases_witness :
  let s := Scenario.startedSession in
  (startTime s ≤ 1000 ∧ 1000 ≤ 61001)
  ∧ 0 ≤ getRemainingTime s 61001 ≤ getRemainingTime s 1000
  ∧ getRemainingTime s 1000 ≤ Z.max 0 (timeLimit s).
Proof.
  split; [by vm_compute|].
  apply (remaining_time_decreases Scenario.startedSession 1000 61001);
    by vm_compute.
Defined.

(** ** The bands of the model and of the controller

    The bands exist twice: in [determineLevelAndProgression], which the
    hook runs, and in lines 230-290 of [completeTest] ([updateLevel],
    [standingAfter] and the flag [percentage >= 75] of the response).
    The second copy is compared here as it is written; the handler
    does not get to it, since the call of [calculateScore] throws
    first. *)

Lemma Qltb_cases (x y : Q) :
  Qltb x y = true ∧ (x < y)%Q ∨ Qltb x y = false ∧ (y <= x)%Q.
Proof.
  destruct (Qltb x y) eqn:E; [left | right]; split; try done.
  - by apply Qltb_lt.
  - by apply Qltb_ge.
Qed.

Lemma Qgeb_cases (x y : Q) :
  Qgeb x y = true ∧ (y <= x)%Q ∨ Qgeb x y = false ∧ (x < y)%Q.
Proof.
  destruct (Qgeb x y) eqn:E; [left | right]; split; try done.
  - by apply Qgeb_ge.
  - by apply Qgeb_lt.
Qed.

Ltac band_case :=
  match goal with
  | H : context [Qltb ?a ?b] |- _ =>
      let E := fresh in
      destruct (Qltb_cases a b) as [[E ?]|[E ?]]; rewrite !E in *; clear E
  | |- context [Qltb ?a ?b] =>
      let E := fresh in
      destruct (Qltb_cases a b) as [[E ?]|[E ?]]; rewrite !E in *; clear E
  | H : context [Qgeb ?a ?b] |- _ =>
      let E := fresh in
      destruct (Qgeb_cases a b) as [[E ?]|[E ?]]; rewrite !E in *; clear E
  | |- context [Qgeb ?a ?b] =>
      let E := fresh in
      destruct (Qgeb_cases a b) as [[E ?]|[E ?]]; rewrite !E in *; clear E
  end.

Ltac band_cases := repeat band_case.

Ltac elems :=
  repeat rewrite elem_of_cons in *; repeat rewrite elem_of_nil in *;
  intuition (try congruence; try lia).

Lemma levelAndProgression_Some st p l f :
  levelAndProgression st p = Some (l, f) → st = 1 ∨ st = 2 ∨ st = 3.
Proof.
  unfold levelAndProgression.
  destruct st as [|[[?|?|]|[?|?|]|]|?]; try done; auto.
Qed.

(** Within a step a higher percentage never gives a lower level and
    never takes the progression flag away. *)
Theorem outcome_monotone st (p p' : Q) l f l' f' :
  (p <= p')%Q →
  levelAndProgression st p = Some (l, f) →
  levelAndProgression st p' = Some (l', f') →
  (levelRank l ≤ levelRank l')%nat ∧ (f = true → f' = true).
Proof.
  intros Hp H1 H2.
  destruct (levelAndProgression_Some _ _ _ _ H1) as [-> | [-> | ->]];
    unfold levelAndProgression in *; band_cases;
    injection H1 as <- <-; injection H2 as <- <-;
    cbn; split; try lia; try done; lra.
Qed.

Lemma outcome_monotone_witness :
  ((40 <= 80)%Q
   ∧ levelAndProgression 2 40 = Some (Some B1, false)
   ∧ levelAndProgression 2 80 = Some (Some B2, true))
  ∧ (levelRank (Some B1) ≤ levelRank (Some B2))%nat ∧ (false = true → true = true).
Proof.
  assert (H : (40 <= 80)%Q) by (by vm_compute).
  split; [by split_and!|].
  by apply (outcome_monotone 2 40 80 (Some B1) false (Some B2) true).
Defined.

(** From 25% on, the level achieved is one of the two levels of the
    step ([getStepLevels]); below 25% it is the top level of the step
    before (none at step 1); and the progression flag is set exactly at
    75% or more of steps 1 and 2. *)
Theorem outcome_within_step st (p : Q) l f :
  levelAndProgression st p = Some (l, f) →
  ((25 <= p)%Q → ∃ x, l = Some x ∧ x ∈ getStepLevels st)
  ∧ ((p < 25)%Q → l = last (getStepLevels (st - 1)))
  ∧ (f = true ↔ (st = 1 ∨ st = 2) ∧ (75 <= p)%Q).
Proof.
  intros H1.
  destruct (levelAndProgression_Some _ _ _ _ H1) as [-> | [-> | ->]];
    unfold levelAndProgression in H1; band_cases;
    injection H1 as <- <-; cbn [getStepLevels Z.sub Z.add Z.opp Z.pos_sub
                                 Pos.pred_double last];
    (split; [|split];
     [ intros ?; first [lra | eexists; split; [done|]; elems]
     | intros ?; first [lra | done]
     | split; [intros ?; first [done | split; [auto|lra]]
              | intros [[?|?] ?]; try done; try lra; try lia] ]).
Qed.

Lemma outcome_within_step_witness :
  levelAndProgression 3 60 = Some (Some C2, false)
  ∧ ((25 <= 60)%Q → ∃ x, Some C2 = Some x ∧ x ∈ getStepLevels 3)
  ∧ ((60 < 25)%Q → Some C2 = last (getStepLevels (3 - 1)))
  ∧ (false = true ↔ (3 = 1 ∨ 3 = 2) ∧ (75 <= 60)%Q).
Proof.
  split; [done|]. by apply (outcome_within_step 3 60 (Some C2) false).
Defined.

(** At steps 1 and 2 the controller's bands and the model's agree: the
    flag [completeTest] returns is the one the session stores, from 25%
    on the level it writes to the user is the level the session stores,
    and below 25% the user's level is left alone ([canTakeTest] is
    switched off at step 1 only). *)
Theorem controller_matches_model_steps_1_2 u s l f :
  step s = 1 ∨ step s = 2 →
  levelAndProgression (step s) (percentage s) = Some (l, f) →
  Qgeb (percentage s) 75 = f
  ∧ ((25 <= percentage s)%Q →
     currentLevel (updateLevel u s) = l
     ∧ canTakeTest (updateLevel u s) = canTakeTest u)
  ∧ ((percentage s < 25)%Q →
     currentLevel (updateLevel u s) = currentLevel u
     ∧ canTakeTest (updateLevel u s)
       = if bool_decide (step s = 1) then false else canTakeTest u).
Proof.
  intros Hst H1. unfold updateLevel, levelAndProgression in *.
  destruct Hst as [Hst|Hst]; rewrite Hst in *; band_cases;
    injection H1 as <- <-; cbn; split_and!; try done;
    try (intros; lra); try (intros; split; done).
Qed.

Lemma controller_matches_model_steps_1_2_witness :
  let u := mkUser 1 (Some A2) true None in
  let s := set_score (newSession (Scenario.initial None 20 2) 1 2 1000) 14 70 in
  (step s = 1 ∨ step s = 2)
  ∧ levelAndProgression (step s) (percentage s) = Some (Some B2, false)
  ∧ Qgeb (percentage s) 75 = false
  ∧ ((25 <= percentage s)%Q →
     currentLevel (updateLevel u s) = Some B2
     ∧ canTakeTest (updateLevel u s) = canTakeTest u)
  ∧ ((percentage s < 25)%Q →
     currentLevel (updateLevel u s) = currentLevel u
     ∧ canTakeTest (updateLevel u s)
       = if bool_decide (step s = 1) then false else canTakeTest u).
Proof.
  split; [by right|]. split; [done|].
  apply (controller_matches_model_steps_1_2
           (mkUser 1 (Some A2) true None)
           (set_score (newSession (Scenario.initial None 20 2) 1 2 1000) 14 70)
           (Some B2) false); [by right | done].
Defined.

(** At step 3 they differ, and only there: from 25% on, the level the
    controller writes to the user differs from the level the session
    stores exactly for percentages from 50 up to 75 (C1 against C2), and
    the flag it returns differs from the stored one exactly from 75%
    on. *)
Theorem controller_differs_from_model_step_3 u s l f :
  step s = 3 →
  levelAndProgression (step s) (percentage s) = Some (l, f) →
  (25 <= percentage s)%Q →
  (currentLevel (updateLevel u s) ≠ l
   ↔ (50 <= percentage s)%Q ∧ (percentage s < 75)%Q)
  ∧ (Qgeb (percentage s) 75 ≠ f ↔ (75 <= percentage s)%Q).
Proof.
  intros Hst H1 H25. unfold updateLevel, levelAndProgression in *.
  rewrite Hst in *; band_cases; injection H1 as <- <-; cbn;
    split; split; try done; try (intros; lra); try (intros; split; lra);
    try (intros [? ?]; lra); intros Hne; by destruct Hne.
Qed.

Lemma controller_differs_from_model_step_3_witness :
  let u := mkUser 1 (Some B2) true None in
  let s := set_score (newSession (Scenario.initial None 20 3) 1 3 1000) 11 55 in
  (step s = 3
   ∧ levelAndProgression (step s) (percentage s) = Some (Some C2, false)
   ∧ (25 <= percentage s)%Q)
  ∧ (currentLevel (updateLevel u s) ≠ Some C2
     ↔ (50 <= percentage s)%Q ∧ (percentage s < 75)%Q)
  ∧ (Qgeb (percentage s) 75 ≠ false ↔ (75 <= percentage s)%Q).
Proof.
  assert (H25 : (25 <= 55)%Q) by (by vm_compute).
  split; [by split_and!|].
  by apply (controller_differs_from_model_step_3
              (mkUser 1 (Some B2) true None)
              (set_score (newSession (Scenario.initial None 20 3) 1 3 1000)
                 11 55)
              (Some C2) false).
Defined.

Lemma canTakeTestStep_true u st :
  canTakeTestStep u st = true
  ↔ canTakeTest u = true ∧ st ∈ stepsOfLevel (currentLevel u).
Proof.
  unfold canTakeTestStep, levelIs.
  destruct (canTakeTest u); cbn [negb].
  2: { split; [done | by intros [? _]]. }
  destruct st as [|[[?|?|]|[?|?|]|]|?];
    destruct (currentLevel u) as [[]|]; cbn;
    (split; [ intros ?; first [done | split; [done | elems]]
            | intros [_ ?]; first [done | exfalso; elems] ]).
Qed.

Lemma stepsOfLevel_3 l :
  3 ∈ stepsOfLevel l ↔ l ∈ [Some B2; Some C1; Some C2].
Proof. destruct l as [[]|]; cbn; elems. Qed.

(** What opens the next step is the level [completeTest] writes, not the
    progression flag: after a step-1 result the user passes the gate of
    step 2 exactly when [canTakeTest] was on and the percentage is 50 or
    more, although the flag is set from 75 on only; after a step-2
    result the user passes the gate of step 3 exactly when [canTakeTest]
    was on and the percentage is 50 or more, or is below 25 with a level
    of B2 or higher held before. *)
Theorem next_step_opens_at_50_percent u s now :
  (step s = 1 →
   (canTakeTestStep (standingAfter u s now) 2 = true
    ↔ canTakeTest u = true ∧ (50 <= percentage s)%Q))
  ∧ (step s = 2 →
     (canTakeTestStep (standingAfter u s now) 3 = true
      ↔ canTakeTest u = true
        ∧ ((50 <= percentage s)%Q
           ∨ (percentage s < 25)%Q
             ∧ currentLevel u ∈ [Some B2; Some C1; Some C2]))).
Proof.
  split; intros Hst; rewrite canTakeTestStep_true;
    unfold standingAfter, updateLevel; rewrite Hst; band_cases;
    cbn [currentLevel canTakeTest set_level bool_decide decide_rel
         stepsOfLevel].
  - split; intros [? ?]; (split; [done|]); [lra | elems].
  - split; intros [? ?]; (split; [done|]); [lra | elems].
  - split; intros [? ?]; exfalso; [elems | lra].
  - rewrite bool_decide_eq_true_2 by done. cbn.
    split; intros [? ?]; [done | lra].
  - split; [intros [? ?] | intros [? _]]; (split; [done|]);
      [left; lra | elems].
  - split; [intros [? ?] | intros [? _]]; (split; [done|]);
      [left; lra | elems].
  - split; [intros [? ?]; exfalso; elems | intros [? [?|[? _]]]; lra].
  - rewrite bool_decide_eq_false_2 by done. rewrite stepsOfLevel_3.
    split; [intros [? ?]; split; [done | right; done]
           | intros [? [?|[_ ?]]]; [lra | done]].
Qed.

(** ** The [pre('save')] hook, run again *)

(** The hook is idempotent: saving a session a second time stores what
    the first save stored, and it only ever writes the score, the
    percentage, the level and the flag. *)
Theorem preSave_idempotent s :
  preSave (preSave s) = preSave s
  ∧ set_outcome (set_score (preSave s) (score s) (percentage s))
      (levelAchieved s) (canProceedToNext s) = s.
Proof.
  split.
  - destruct (decide (answers s = [])) as [Ha|Ha];
      [by rewrite !(preSave_no_answers s Ha)|].
    apply answered_length in Ha.
    unfold preSave at 2. rewrite bool_decide_eq_true_2 by done.
    unfold determineLevelAndProgression. cbn [step percentage set_score].
    destruct (levelAndProgression (step s) _) as [[l f]|] eqn:E;
      unfold preSave, determineLevelAndProgression, correctAnswers;
      cbn [answers questions step percentage set_outcome set_score];
      rewrite bool_decide_eq_true_2 by done;
      unfold correctAnswers in E; by rewrite E.
  - unfold preSave, determineLevelAndProgression.
    destruct (bool_decide _); [|by destruct s].
    destruct (levelAndProgression _ _) as [[l f]|]; by destruct s.
Qed.

(** ** Answers: the last submission wins *)

Lemma upsertAnswer_ids a l :
  questionId <$> upsertAnswer a l
  = if bool_decide (questionId a ∈ questionId <$> l)
    then questionId <$> l
    else (questionId <$> l) ++ [questionId a].
Proof.
  unfold upsertAnswer.
  destruct (list_find _ l) as [[i x]|] eqn:E.
  - apply list_find_Some in E as (Hi & Hx & _).
    rewrite bool_decide_eq_true_2.
    + rewrite list_fmap_insert. apply list_insert_id.
      by rewrite list_lookup_fmap, Hi, <- Hx.
    + rewrite <- Hx. apply list_elem_of_fmap_2. by eapply list_elem_of_lookup_2.
  - apply list_find_None in E. rewrite Forall_forall in E.
    rewrite bool_decide_eq_false_2; [by rewrite fmap_app|].
    intros (x & Hx & Hin)%list_elem_of_fmap. by destruct (E x Hin).
Qed.

Lemma upsertAnswer_NoDup a l :
  NoDup (questionId <$> l) → NoDup (questionId <$> upsertAnswer a l).
Proof.
  intros Hnd. rewrite upsertAnswer_ids. case_bool_decide as Hin; [done|].
  apply NoDup_app. split_and!; [done| |apply NoDup_singleton].
  intros x Hx ->%list_elem_of_singleton. done.
Qed.

Lemma upsertAnswer_find a l :
  ∃ i, list_find (λ x, questionId x = questionId a) (upsertAnswer a l)
       = Some (i, a).
Proof.
  unfold upsertAnswer.
  destruct (list_find _ l) as [[i x]|] eqn:E.
  - apply list_find_Some in E as (Hi & Hx & Hmin).
    exists i. apply list_find_Some. split_and!.
    + apply list_lookup_insert_eq. by eapply lookup_lt_Some.
    + done.
    + intros j y Hj Hji. rewrite list_lookup_insert_ne in Hj by lia.
      by apply (Hmin j).
  - apply list_find_None in E. rewrite Forall_forall in E.
    exists (length l). apply list_find_Some. split_and!.
    + by rewrite lookup_app_r, Nat.sub_diag by lia.
    + done.
    + intros j y Hj Hjl. rewrite lookup_app_l in Hj by done.
      apply E. by eapply list_elem_of_lookup_2.
Qed.

Lemma upsertAnswer_other a l j x :
  l !! j = Some x → questionId x ≠ questionId a →
  upsertAnswer a l !! j = Some x.
Proof.
  intros Hj Hne. unfold upsertAnswer.
  destruct (list_find _ l) as [[i y]|] eqn:E.
  - apply list_find_Some in E as (Hi & Hy & _).
    rewrite list_lookup_insert_ne; [done|]. intros ->. congruence.
  - by apply lookup_app_l_Some.
Qed.

(** An accepted submission replaces the answer the question had, or is
    appended when it had none: afterwards the answer found for the
    question is the new one, the answers to other questions are where
    they were, and answers that had distinct questions still have, so
    that the new answer is the only one for its question. *)
Theorem last_answer_wins db uid sid qid sel ts s q :
  0 ≤ sel → 0 ≤ ts →
  activeSession uid sid db = Some s →
  questionById qid db = Some q →
  qid ∈ questions s →
  ∃ db' data s',
    submitAnswer db uid sid qid sel ts = Done (db', data)
    ∧ sessionById sid db' = Some s'
    ∧ (∃ i, list_find (λ x, questionId x = qid) (answers s')
            = Some (i, mkAnswer qid sel (optionIsCorrect q sel) ts))
    ∧ (∀ j x, answers s !! j = Some x → questionId x ≠ qid →
              answers s' !! j = Some x)
    ∧ (NoDup (questionId <$> answers s) →
       NoDup (questionId <$> answers s')
       ∧ ∀ x, x ∈ answers s' → questionId x = qid →
              x = mkAnswer qid sel (optionIsCorrect q sel) ts).
Proof.
  intros Hsel Hts Hs Hq Hin.
  destruct (submitAnswer_recorded db uid sid qid sel ts s q)
    as (db' & data & s' & Hd & Hs' & _ & Ha & _); [done..|].
  set (a := mkAnswer qid sel (optionIsCorrect q sel) ts) in *.
  exists db', data, s'. rewrite Ha. split_and!; [done..| | |].
  - apply (upsertAnswer_find a).
  - intros j x Hj Hne. by apply upsertAnswer_other.
  - intros Hnd. pose proof (upsertAnswer_NoDup a _ Hnd) as Hnd'.
    split; [done|]. intros x Hx Hxq.
    apply (unique_key questionId (upsertAnswer a (answers s)));
      [done | done | apply elem_of_upsertAnswer | done].
Qed.

Lemma last_answer_wins_witness :
  let db := Scenario.stage1_5_of_20 in
  let s := Scenario.stored 0 db in
  let q := mkQuestion 100 1 (Scenario.choice 4 0) true in
  (0 ≤ 2 ∧ 0 ≤ 7 ∧ activeSession 1 0 db = Some s
   ∧ questionById 100 db = Some q ∧ 100%nat ∈ questions s)
  ∧ ∃ db' data s',
      submitAnswer db 1 0 100 2 7 = Done (db', data)
      ∧ sessionById 0 db' = Some s'
      ∧ (∃ i, list_find (λ x, questionId x = 100%nat) (answers s')
              = Some (i, mkAnswer 100 2 (optionIsCorrect q 2) 7))
      ∧ (∀ j x, answers s !! j = Some x → questionId x ≠ 100%nat →
                answers s' !! j = Some x)
      ∧ (NoDup (questionId <$> answers s) →
         NoDup (questionId <$> answers s')
         ∧ ∀ x, x ∈ answers s' → questionId x = 100%nat →
                x = mkAnswer 100 2 (optionIsCorrect q 2) 7).
Proof.
  assert (Hs : activeSession 1 0 Scenario.stage1_5_of_20
               = Some (Scenario.stored 0 Scenario.stage1_5_of_20))
    by (by vm_compute).
  assert (Hq : questionById 100 Scenario.stage1_5_of_20
               = Some (mkQuestion 100 1 (Scenario.choice 4 0) true))
    by (by vm_compute).
  assert (Hin : 100%nat ∈ questions (Scenario.stored 0 Scenario.stage1_5_of_20))
    by (vm_compute; left).
  split; [split_and!; [lia | lia | done..]|].
  by apply (last_answer_wins Scenario.stage1_5_of_20 1 0 100 2 7).
Defined.

(** Overwriting an answer, run: question 100, answered correctly, is
    answered again with option 2; 20 answers remain and the score
    drops from 5 to 4. *)
Example last_answer_wins_example :
  let db := Scenario.stage1_5_of_20 in
  let r := submitAnswer db 1 0 100 2 7 in
  (λ s, (length (answers s), score s)) <$> sessionById 0 db
  = Some (20%nat, 5%nat)
  ∧ response r = Done (mkAnswerData 100 false 20 20)
  ∧ (λ s, (length (answers s), score s, answers s !! 0%nat))
      <$> sessionById 0 (after db r)
    = Some (20%nat, 4%nat, Some (mkAnswer 100 2 false 7)).
Proof. by vm_compute. Qed.

(** ** What a request changes *)

Lemma sessionById_unique db s :
  uniqueIds db → s ∈ db_sessions db → sessionById (session_id s) db = Some s.
Proof.
  intros Hu Hs. unfold sessionById.
  destruct (findOne_is_Some (λ x, session_id x = session_id s)
              (db_sessions db) s Hs eq_refl) as [x Hx].
  rewrite Hx. f_equal. apply findOne_Some in Hx as [Hxl Hxid].
  by apply (unique_key session_id (db_sessions db)).
Qed.

(** Every successful [startTest] is a resume or a creation. *)
Lemma startTest_Done db uid st now db' d :
  startTest db uid st now = Done (db', d) →
  (∃ u, userById uid db = Some u ∧ canTakeTestStep u st = true)
  ∧ ((∃ s, existingSession uid st db = Some s ∧ db' = db
           ∧ d = SessionInProgress s)
     ∨ (existingSession uid st db = None ∧ questionPool st db ≠ []
        ∧ db' = saveSession (newSession db uid st now) db
        ∧ d = SessionStarted (newSessionId db)
                ((λ q, (question_id q, text <$> options q))
                 <$> take 20 (questionPool st db))
                30 (length (take 20 (questionPool st db))))).
Proof.
  intros Hd.
  destruct (decide (1 ≤ st ≤ 3)) as [Hst|Hst].
  2: { unfold startTest in Hd.
       by rewrite (bool_decide_eq_false_2 (1 ≤ st ≤ 3)) in Hd. }
  destruct (userById uid db) as [u|] eqn:Hu.
  2: { unfold startTest, userById in *.
       rewrite (bool_decide_eq_true_2 (1 ≤ st ≤ 3)) in Hd by done.
       handler. by rewrite Hu in Hd. }
  destruct (canTakeTestStep u st) eqn:He.
  2: { by rewrite (startTest_ineligible _ _ _ _ u) in Hd. }
  split; [by exists u|].
  destruct (existingSession uid st db) as [s|] eqn:Hs.
  { rewrite (startTest_resume _ _ _ _ u s) in Hd by done.
    injection Hd as <- <-. left. by exists s. }
  destruct (decide (questionPool st db = [])) as [Hp|Hp].
  { by rewrite (startTest_no_questions _ _ _ _ u) in Hd. }
  destruct (decide (st = 1)) as [H1|H1].
  2: { by rewrite (startTest_refused _ _ _ _ u) in Hd. }
  rewrite (startTest_created _ _ _ _ u) in Hd by done.
  injection Hd as <- <-. by right.
Qed.

(** A session is created at step 1 only. *)
Lemma startTest_Started db uid st now db' sid qs tl n :
  startTest db uid st now = Done (db', SessionStarted sid qs tl n) → st = 1.
Proof.
  intros Hd. destruct (decide (st = 1)) as [H1|H1]; [done|].
  pose proof Hd as Hd'.
  apply startTest_Done in Hd' as [(u & Hu & He) [(s & _ & _ & [=])|Hc]].
  destruct Hc as (Hex & Hp & _).
  rewrite (startTest_refused _ _ _ _ u) in Hd;
    [done | by eapply canTakeTestStep_step | done..].
Qed.

(** The session collection after a request: as before, or with a new
    session of the requester at its end, or with an IN_PROGRESS session
    of the requester replaced by its answered version. *)
Lemma handle_sessions db r :
  db_sessions (handle db r) = db_sessions db
  ∨ (∃ uid st now,
       r = StartTest uid st now ∧ existingSession uid st db = None
       ∧ questionPool st db ≠ []
       ∧ db_sessions (handle db r)
         = db_sessions db ++ [newSession db uid st now])
  ∨ (∃ s s',
       s ∈ db_sessions db ∧ status s = IN_PROGRESS
       ∧ requester r = Some (userId s)
       ∧ (∃ a, questionId a ∈ questions s ∧ s' = withAnswer s a)
       ∧ db_sessions (handle db r) = store session_id s' (db_sessions db)).
Proof.
  destruct r as [uid st now|uid sid qid sel ts|uid sid now|q|id].
  - cbn [handle].
    destruct (startTest db uid st now) as [e|[db' d]] eqn:E; [by left|].
    apply startTest_Done in E as [_ [(s & _ & -> & _)|(He & Hp & -> & _)]];
      [by left|].
    right. left. exists uid, st, now. split_and!; [done..|].
    cbn [after db_sessions saveSession].
    apply store_fresh, newSessionId_fresh.
  - cbn [handle].
    destruct (submitAnswer db uid sid qid sel ts) as [e|[db' d]] eqn:E;
      [by left|].
    apply submitAnswer_Done in E as (s & q & _ & _ & Hs & _ & Hin & -> & _).
    apply activeSession_Some in Hs as (Hs & _ & Hu & Hst).
    right. right. eexists s, _. split_and!; [done | done | by rewrite Hu | |done].
    eexists. split; [|done]. done.
  - left. by rewrite handle_CompleteTest.
  - by left.
  - left. by destruct (handle_DeleteQuestion db id) as (_ & ? & _).
Qed.

(** No request writes a user: the one handler that would,
    [completeTest], throws before it does. *)
Lemma handle_users db r : db_users (handle db r) = db_users db.
Proof.
  destruct r as [uid st now|uid sid qid sel ts|uid sid now|q|id].
  - cbn [handle].
    destruct (startTest db uid st now) as [e|[db' d]] eqn:E; [done|].
    by apply startTest_Done in E as [_ [(s & _ & -> & _)|(_ & _ & -> & _)]].
  - cbn [handle].
    destruct (submitAnswer db uid sid qid sel ts) as [e|[db' d]] eqn:E;
      [done|].
    by apply submitAnswer_Done in E as (s & q & _ & _ & _ & _ & _ & -> & _).
  - by rewrite handle_CompleteTest.
  - done.
  - by destruct (handle_DeleteQuestion db id) as (? & _).
Qed.

Lemma run_users rs db : db_users (run db rs) = db_users db.
Proof.
  revert db. induction rs as [|r rs IH]; intros db; [done|].
  cbn. by rewrite IH, handle_users.
Qed.

Lemma handle_questions db r :
  is_Some (requester r) → db_questions (handle db r) = db_questions db.
Proof.
  destruct r as [uid st now|uid sid qid sel ts|uid sid now|q|id];
    intros [x Hx]; try done.
  - cbn [handle].
    destruct (startTest db uid st now) as [e|[db' d]] eqn:E; [done|].
    by apply startTest_Done in E as [_ [(s & _ & -> & _)|(_ & _ & -> & _)]].
  - cbn [handle].
    destruct (submitAnswer db uid sid qid sel ts) as [e|[db' d]] eqn:E;
      [done|].
    by apply submitAnswer_Done in E as (s & q & _ & _ & _ & _ & _ & -> & _).
  - by rewrite handle_CompleteTest.
Qed.

Lemma withAnswer_frame s a :
  session_id (withAnswer s a) = session_id s
  ∧ userId (withAnswer s a) = userId s
  ∧ step (withAnswer s a) = step s
  ∧ status (withAnswer s a) = status s
  ∧ questions (withAnswer s a) = questions s.
Proof.
  unfold withAnswer.
  by rewrite preSave_session_id, preSave_userId, preSave_step,
    preSave_status, preSave_questions.
Qed.

(** A changed session keeps its id and its user. *)
Lemma changed_session s s' :
  (∃ a, questionId a ∈ questions s ∧ s' = withAnswer s a) →
  session_id s' = session_id s ∧ userId s' = userId s.
Proof.
  intros (a & _ & ->). by destruct (withAnswer_frame s a) as (? & ? & _).
Qed.

Lemma handle_completed db r s :
  uniqueIds db → s ∈ db_sessions db → status s = COMPLETED →
  s ∈ db_sessions (handle db r).
Proof.
  intros Hu Hs Hst.
  destruct (handle_sessions db r)
    as [->|[(uid & st & now & _ & _ & _ & ->)
           |(x & x' & Hx & Hxst & _ & Hch & ->)]].
  - done.
  - apply elem_of_app. by left.
  - destruct (changed_session x x' Hch) as [Hid _].
    apply (store_other session_id x' _ x); [done..|]. congruence.
Qed.

(** COMPLETED is final: whatever requests follow, a completed session
    stays in the collection exactly as it is, field for field, and is
    the session found under its id. *)
Theorem completed_session_never_changes db rs s :
  Inv db → s ∈ db_sessions db → status s = COMPLETED →
  s ∈ db_sessions (run db rs)
  ∧ sessionById (session_id s) (run db rs) = Some s.
Proof.
  intros HI Hs Hst.
  assert (Hin : s ∈ db_sessions (run db rs)).
  { revert db HI Hs. induction rs as [|r rs IH]; intros db HI Hs; [done|].
    cbn. apply IH; [by apply handle_Inv|].
    destruct HI as [Hu _]. by apply handle_completed. }
  split; [done|]. apply sessionById_unique; [|done].
  by destruct (run_Inv rs db HI).
Qed.

Lemma completed_session_never_changes_witness :
  let db := Scenario.archived in
  let s := Scenario.stored 0 db in
  let rs := [StartTest 1 1 6000; SubmitAnswer 1 0 100 1 5;
             CompleteTest 1 0 7000; SubmitAnswer 1 1 100 0 5;
             CompleteTest 1 1 8000; DeleteQuestion 100] in
  (Inv db ∧ s ∈ db_sessions db ∧ status s = COMPLETED)
  ∧ s ∈ db_sessions (run db rs)
  ∧ sessionById (session_id s) (run db rs) = Some s.
Proof.
  assert (HI : Inv Scenario.archived).
  { split.
    - apply (bool_decide_unpack (NoDup _)). vm_compute. exact I.
    - intros uid st. unfold activeSessions.
      etransitivity; [apply length_filter|]. vm_compute. lia. }
  assert (Hs : Scenario.stored 0 Scenario.archived
               ∈ db_sessions Scenario.archived)
    by (vm_compute; left).
  assert (Hc : status (Scenario.stored 0 Scenario.archived) = COMPLETED)
    by (vm_compute; reflexivity).
  split; [by split_and!|].
  exact (completed_session_never_changes Scenario.archived _ _ HI Hs Hc).
Defined.

(** A request of the test routes touches only the requester's data:
    the sessions of other users and the documents of other users are
    left as they are, the questions are not written, and a session that
    is new or changed belongs to the requester. *)
Theorem request_touches_only_own_data db r uid :
  uniqueIds db → requester r = Some uid →
  (∀ s, s ∈ db_sessions db → userId s ≠ uid → s ∈ db_sessions (handle db r))
  ∧ (∀ s, s ∈ db_sessions (handle db r) → s ∉ db_sessions db →
          userId s = uid)
  ∧ (∀ uid', uid' ≠ uid → userById uid' (handle db r) = userById uid' db)
  ∧ db_questions (handle db r) = db_questions db.
Proof.
  intros Hu Hr. split_and!.
  - intros s Hs Hne.
    destruct (handle_sessions db r)
      as [->|[(uid0 & st & now & _ & _ & _ & ->)
             |(x & x' & Hx & _ & Hrx & Hch & ->)]].
    + done.
    + apply elem_of_app. by left.
    + destruct (changed_session x x' Hch) as [Hid _].
      apply (store_other session_id x' _ x); [done..|]. congruence.
  - intros s Hs Hnew.
    destruct (handle_sessions db r)
      as [Heq|[(uid0 & st & now & -> & _ & _ & Heq)
              |(x & x' & Hx & _ & Hrx & Hch & Heq)]];
      rewrite Heq in Hs.
    + done.
    + apply elem_of_app in Hs as [? | ->%list_elem_of_singleton]; [done|].
      cbn in Hr. by injection Hr.
    + destruct (changed_session x x' Hch) as [_ Huid].
      apply elem_of_store_inv in Hs as [-> | ?]; [|done]. congruence.
  - intros uid' Hne. unfold userById. by rewrite handle_users.
  - apply handle_questions. by rewrite Hr.
Qed.

Lemma request_touches_only_own_data_witness :
  let db := Scenario.locked in
  let r := SubmitAnswer 2 0 100 0 5 in
  (uniqueIds db ∧ requester r = Some 2%nat)
  ∧ (∀ s, s ∈ db_sessions db → userId s ≠ 2%nat →
          s ∈ db_sessions (handle db r))
  ∧ (∀ s, s ∈ db_sessions (handle db r) → s ∉ db_sessions db →
          userId s = 2%nat)
  ∧ (∀ uid', uid' ≠ 2%nat → userById uid' (handle db r) = userById uid' db)
  ∧ db_questions (handle db r) = db_questions db.
Proof.
  assert (Hu : uniqueIds Scenario.locked)
    by (apply (bool_decide_unpack (NoDup _)); vm_compute; exact I).
  assert (Hr : requester (SubmitAnswer 2 0 100 0 5) = Some 2%nat)
    by reflexivity.
  split; [by split|].
  exact (request_touches_only_own_data Scenario.locked _ 2 Hu Hr).
Defined.

(** ** The lockout

    The controller writes [canTakeTest] in one place, where it sets it
    to false ([standingAfter_frame]), and no request gets to write a
    user at all ([handle_users]). *)

Lemma standingAfter_frame u s now :
  user_id (standingAfter u s now) = user_id u
  ∧ (canTakeTest (standingAfter u s now) = true → canTakeTest u = true).
Proof.
  unfold standingAfter, updateLevel. cbn.
  repeat case_match; cbn; split; congruence.
Qed.

Lemma handle_locked db r uid u :
  userById uid db = Some u → canTakeTest u = false →
  ∃ u', userById uid (handle db r) = Some u' ∧ canTakeTest u' = false.
Proof.
  intros Hu Hlock. exists u. split; [|done].
  unfold userById in *. by rewrite handle_users.
Qed.

(** The lockout is permanent: once a user's [canTakeTest] flag is off,
    no sequence of requests switches it on again, and every later
    [startTest] of that user, for any step, is answered with 403. *)
Theorem lockout_is_permanent db uid u rs :
  userById uid db = Some u → canTakeTest u = false →
  ∃ u',
    userById uid (run db rs) = Some u' ∧ canTakeTest u' = false
    ∧ ∀ st now,
        1 ≤ st ≤ 3 →
        startTest (run db rs) uid st now
        = Thrown (mkFailure 403 "You are not eligible to take this test step").
Proof.
  intros Hu Hlock.
  assert (Hrun : ∃ u', userById uid (run db rs) = Some u'
                       ∧ canTakeTest u' = false).
  { revert db u Hu Hlock. induction rs as [|r rs IH]; intros db u Hu Hlock.
    - by exists u.
    - cbn. destruct (handle_locked db r uid u Hu Hlock) as (u1 & Hu1 & Hl1).
      by apply (IH _ u1). }
  destruct Hrun as (u' & Hu' & Hl'). exists u'. split_and!; [done..|].
  intros st now Hst. apply (startTest_ineligible _ _ _ _ u'); [done..|].
  unfold canTakeTestStep. by rewrite Hl'.
Qed.

Lemma lockout_is_permanent_witness :
  let db := Scenario.locked in
  let rs := [StartTest 1 1 6000; StartTest 1 2 6000;
             SubmitAnswer 2 0 100 0 5; CompleteTest 2 0 7000;
             SaveQuestion Scenario.edited] in
  (userById 1 db = Some Scenario.lockedA2
   ∧ canTakeTest Scenario.lockedA2 = false)
  ∧ ∃ u',
      userById 1 (run db rs) = Some u' ∧ canTakeTest u' = false
      ∧ ∀ st now,
          1 ≤ st ≤ 3 →
          startTest (run db rs) 1 st now
          = Thrown (mkFailure 403 "You are not eligible to take this test step").
Proof.
  assert (Hu : userById 1 Scenario.locked = Some Scenario.lockedA2)
    by (vm_compute; reflexivity).
  assert (Hl : canTakeTest Scenario.lockedA2 = false) by reflexivity.
  split; [by split|].
  exact (lockout_is_permanent Scenario.locked 1 Scenario.lockedA2 _ Hu Hl).
Defined.

(** ** Stored sessions stay consistent *)

Lemma roundedPercentage_bounds (c t : nat) :
  (c ≤ t)%nat → (0 <= roundedPercentage c t <= 100)%Q.
Proof.
  intros Hct. unfold roundedPercentage. case_bool_decide as Ht; [|done].
  set (x := (Qnat c / Qnat t * 100)%Q).
  assert (Hx : (0 <= x <= 100)%Q).
  { assert (Hpos : (0 < Qnat t)%Q) by (unfold Qnat, Qlt; cbn; lia).
    assert (Hc : (0 <= Qnat c)%Q) by (unfold Qnat, Qle; cbn; lia).
    assert (Hle : (Qnat c <= 1 * Qnat t)%Q) by (unfold Qnat, Qle; cbn; lia).
    pose proof (Qle_shift_div_r _ _ _ Hpos Hle) as Hdiv.
    pose proof (Qle_shift_div_l 0 (Qnat c) _ Hpos) as Hdiv0.
    rewrite Qmult_0_l in Hdiv0. specialize (Hdiv0 Hc).
    unfold x. split; nra. }
  unfold Math_round.
  pose proof (Qfloor_resp_le 0 x ltac:(tauto)) as H0.
  assert (H1 : (0 + (1 # 2) <= x + (1 # 2))%Q) by lra.
  assert (H2 : (x + (1 # 2) <= 100 + (1 # 2))%Q) by lra.
  apply Qfloor_resp_le in H1, H2.
  change (Qfloor (0 + (1 # 2))) with 0 in H1.
  change (Qfloor (100 + (1 # 2))) with 100 in H2.
  rewrite <- (Zle_Qle 0), <- (Zle_Qle _ 100). done.
Qed.

Lemma newSession_sound db uid st now :
  NoDup (question_id <$> db_questions db) → questionPool st db ≠ [] →
  sessionSound (newSession db uid st now).
Proof.
  intros Hnd Hp. unfold sessionSound. cbn [newSession answers questions
    score percentage status]. split_and!.
  - constructor.
  - intros a Ha. inversion Ha.
  - assert (Hsub : take 20 (questionPool st db) `sublist_of` db_questions db).
    { etransitivity; [apply sublist_take | apply sublist_filter]. }
    apply NoDup_fmap_2_strong.
    + intros x y Hx Hy Hxy.
      apply (unique_key question_id (db_questions db)); [done| | |done];
        by eapply elem_of_sublist.
    + eapply sublist_NoDup; [|done]. by eapply NoDup_fmap_1.
  - rewrite length_fmap, length_take.
    destruct (questionPool st db); [done|]. cbn. lia.
  - rewrite length_fmap, length_take. lia.
  - done.
  - by rewrite roundedPercentage_0.
  - by left.
Qed.

Lemma correctAnswers_preSave s : correctAnswers (preSave s) = correctAnswers s.
Proof. unfold correctAnswers. by rewrite preSave_answers. Qed.

Lemma withAnswer_sound s a :
  sessionSound s → questionId a ∈ questions s → status s = IN_PROGRESS →
  sessionSound (withAnswer s a).
Proof.
  intros (Hnd & Hin & Hq & [Hlen0 Hlen] & _ & _ & _) Ha Hst.
  assert (Hne : answers (set_answers s (upsertAnswer a (answers s))) ≠ []).
  { cbn. pose proof (elem_of_upsertAnswer a (answers s)) as He.
    destruct (upsertAnswer a (answers s)); [inversion He | done]. }
  unfold sessionSound, withAnswer.
  rewrite correctAnswers_preSave, preSave_answers, preSave_questions,
    preSave_status, preSave_score, preSave_percentage by done.
  cbn [answers questions status set_answers]. split_and!; try done.
  - by apply upsertAnswer_NoDup.
  - intros x Hx.
    assert (Hid : questionId x ∈ questionId <$> upsertAnswer a (answers s))
      by (by apply list_elem_of_fmap_2).
    rewrite upsertAnswer_ids in Hid. case_bool_decide.
    + apply list_elem_of_fmap in Hid as (y & -> & Hy). by apply Hin.
    + apply elem_of_app in Hid as [Hid|Hid].
      * apply list_elem_of_fmap in Hid as (y & -> & Hy). by apply Hin.
      * by apply list_elem_of_singleton in Hid as ->.
  - by left.
Qed.

Lemma handle_questions_NoDup db r :
  NoDup (question_id <$> db_questions db) →
  NoDup (question_id <$> db_questions (handle db r)).
Proof.
  intros Hq. destruct r as [uid st now|uid sid qid sel ts|uid sid now|q|id].
  - by rewrite handle_questions.
  - by rewrite handle_questions.
  - by rewrite handle_questions.
  - by apply store_NoDup.
  - destruct (handle_DeleteQuestion db id) as (_ & _ & [->| ->]); [done|].
    by apply deleteDoc_NoDup.
Qed.

Lemma handle_Sound db r : Sound db → Sound (handle db r).
Proof.
  intros [Hq Hs]. split.
  - by apply handle_questions_NoDup.
  - intros y Hy.
    destruct (handle_sessions db r)
      as [Heq|[(uid & st & now & _ & _ & Hp & Heq)
              |(x & x' & Hx & Hxst & _ & Hch & Heq)]];
      rewrite Heq in Hy.
    + by apply Hs.
    + apply elem_of_app in Hy as [Hy|Hy]; [by apply Hs|].
      apply list_elem_of_singleton in Hy as ->. by apply newSession_sound.
    + apply elem_of_store_inv in Hy as [Hy|Hy]; [|by apply Hs]. subst y.
      destruct Hch as (a & Ha & ->).
      apply withAnswer_sound; [by apply Hs | done | done].
Qed.

Lemma run_Sound rs db : Sound db → Sound (run db rs).
Proof.
  revert db. induction rs as [|r rs IH]; intros db HS; [done|].
  cbn. by apply IH, handle_Sound.
Qed.

(** In every state reached from a database without sessions whose
    questions have distinct ids, each stored session is consistent: its
    answers are to distinct questions, all among its 1 to 20 questions;
    its score is the number of its correct answers; its percentage is
    the rounded share of the score in the number of questions and lies
    between 0 and 100; and it is IN_PROGRESS or COMPLETED. *)
Theorem stored_sessions_are_consistent db0 db s :
  db_sessions db0 = [] → NoDup (question_id <$> db_questions db0) →
  reachable db0 db → s ∈ db_sessions db →
  NoDup (questionId <$> answers s)
  ∧ (∀ a, a ∈ answers s → questionId a ∈ questions s)
  ∧ (score s ≤ length (answers s) ≤ length (questions s))%nat
  ∧ (0 < length (questions s) ≤ 20)%nat
  ∧ score s = correctAnswers s
  ∧ (percentage s
     == roundedPercentage (score s) (length (questions s)))%Q
  ∧ (0 <= percentage s <= 100)%Q
  ∧ (status s = IN_PROGRESS ∨ status s = COMPLETED).
Proof.
  intros H0 Hq [rs ->] Hs.
  assert (HS : Sound db0).
  { split; [done|]. rewrite H0. intros x Hx. inversion Hx. }
  destruct (run_Sound rs db0 HS) as [_ Hall].
  destruct (Hall s Hs) as (Hnd & Hin & Hqs & [Hlen0 Hlen] & Hsc & Hp & Hst).
  assert (Hal : (length (answers s) ≤ length (questions s))%nat).
  { rewrite <- (length_fmap questionId (answers s)).
    apply submseteq_length, NoDup_submseteq; [done|].
    intros x (a & -> & Ha)%list_elem_of_fmap. by apply Hin. }
  assert (Hsl : (score s ≤ length (answers s))%nat)
    by (rewrite Hsc; apply length_filter).
  split_and!; try done; try lia.
  - by rewrite Hsc.
  - destruct (roundedPercentage_bounds (correctAnswers s)
                (length (questions s))) as [Hlo _]; [lia|].
    apply Qle_lteq in Hlo as [Hlo|Hlo]; apply Qle_lteq.
    + left. eapply Qlt_compat; [reflexivity | exact Hp | done].
    + right. by rewrite Hp.
  - destruct (roundedPercentage_bounds (correctAnswers s)
                (length (questions s))) as [_ Hhi]; [lia|].
    apply Qle_lteq in Hhi as [Hhi|Hhi]; apply Qle_lteq.
    + left. eapply Qlt_compat; [exact Hp | reflexivity | done].
    + right. by rewrite Hp.
Qed.

Lemma stored_sessions_are_consistent_witness :
  let db0 := Scenario.initial None 20 1 in
  let db := Scenario.stage1_5_of_20 in
  let s := Scenario.stored 0 db in
  (db_sessions db0 = [] ∧ NoDup (question_id <$> db_questions db0)
   ∧ reachable db0 db ∧ s ∈ db_sessions db)
  ∧ NoDup (questionId <$> answers s)
  ∧ (∀ a, a ∈ answers s → questionId a ∈ questions s)
  ∧ (score s ≤ length (answers s) ≤ length (questions s))%nat
  ∧ (0 < length (questions s) ≤ 20)%nat
  ∧ score s = correctAnswers s
  ∧ (percentage s
     == roundedPercentage (score s) (length (questions s)))%Q
  ∧ (0 <= percentage s <= 100)%Q
  ∧ (status s = IN_PROGRESS ∨ status s = COMPLETED).
Proof.
  assert (H0 : db_sessions (Scenario.initial None 20 1) = []) by reflexivity.
  assert (Hq : NoDup (question_id <$> db_questions (Scenario.initial None 20 1)))
    by (apply (bool_decide_unpack (NoDup _)); vm_compute; exact I).
  assert (Hr : reachable (Scenario.initial None 20 1) Scenario.stage1_5_of_20)
    by (eexists; reflexivity).
  assert (Hs : Scenario.stored 0 Scenario.stage1_5_of_20
               ∈ db_sessions Scenario.stage1_5_of_20)
    by (vm_compute; left).
  split; [by split_and!|].
  exact (stored_sessions_are_consistent (Scenario.initial None 20 1)
           Scenario.stage1_5_of_20
           (Scenario.stored 0 Scenario.stage1_5_of_20) H0 Hq Hr Hs).
Defined.

(** ** Reading sessions: history, current test, one session *)

Lemma findOne_app_new {A} (P : A → Prop) `{∀ x, Decision (P x)} l x :
  (∀ y, y ∈ l → ¬ P y) → P x → findOne P (l ++ [x]) = Some x.
Proof.
  intros Hl Hx. induction l as [|y l IH]; cbn [app].
  - rewrite findOne_cons. by rewrite decide_True.
  - rewrite findOne_cons, decide_False.
    + apply IH. intros z Hz. apply Hl. by right.
    + apply Hl. left.
Qed.

Lemma findOne_app_old {A} (P : A → Prop) `{∀ x, Decision (P x)} l x :
  ¬ P x → findOne P (l ++ [x]) = findOne P l.
Proof.
  intros Hx. induction l as [|y l IH]; cbn [app].
  - rewrite findOne_cons. by rewrite decide_False.
  - rewrite !findOne_cons. by rewrite IH.
Qed.

Lemma handle_history db r uid :
  uniqueIds db → getTestHistory (handle db r) uid = getTestHistory db uid.
Proof.
  intros Hu. unfold getTestHistory. f_equal.
  destruct (handle_sessions db r)
    as [->|[(uid0 & st & now & _ & _ & _ & ->)
           |(x & x' & Hx & Hxst & _ & (a & _ & ->) & ->)]].
  - done.
  - rewrite filter_app, filter_cons, filter_nil.
    rewrite decide_False; [by rewrite app_nil_r|].
    cbn. intros [_ [?|?]]; done.
  - destruct (withAnswer_frame x a) as (Hid & _ & _ & Hst & _).
    destruct (store_replace session_id (withAnswer x a) (db_sessions db) x
                Hu Hx) as (l1 & l2 & -> & ->); [done|].
    rewrite !filter_app, !filter_cons.
    rewrite !decide_False; [done| |]; intros [_ [?|?]]; congruence.
Qed.

(** No request ever changes a test history.  [startTest] and
    [submitAnswer] store sessions in progress only, and [completeTest],
    the one handler that marks a session COMPLETED, throws before it
    saves; so a history holds what other means than the handlers have
    stored as COMPLETED or FAILED, and from a database without sessions
    every history stays empty. *)
Theorem history_never_changes db rs uid :
  Inv db →
  getTestHistory (run db rs) uid = getTestHistory db uid
  ∧ (db_sessions db = [] → getTestHistory (run db rs) uid = []).
Proof.
  intros HI.
  assert (Heq : getTestHistory (run db rs) uid = getTestHistory db uid).
  { revert db HI. induction rs as [|r rs IH]; intros db HI; [done|].
    cbn. rewrite IH by (by apply handle_Inv).
    destruct HI as [Hu _]. by apply handle_history. }
  split; [done|]. intros H0. rewrite Heq. unfold getTestHistory.
  by rewrite H0.
Qed.

Lemma history_never_changes_witness :
  let db := Scenario.archived in
  let rs := [StartTest 1 1 6000; SubmitAnswer 1 1 100 0 5;
             CompleteTest 1 1 7000; CompleteTest 1 0 8000] in
  Inv db
  ∧ getTestHistory (run db rs) 1 = getTestHistory db 1
  ∧ (db_sessions db = [] → getTestHistory (run db rs) 1 = []).
Proof.
  assert (HI : Inv Scenario.archived).
  { split.
    - apply (bool_decide_unpack (NoDup _)). vm_compute. exact I.
    - intros uid st. unfold activeSessions.
      etransitivity; [apply length_filter|]. vm_compute. lia. }
  split; [exact HI|].
  exact (history_never_changes Scenario.archived _ 1 HI).
Defined.

(** The history of the scenario: the one archived session, before and
    after a session was started, answered and sent to [completeTest]. *)
Example history_example :
  let db := Scenario.archived in
  let rs := [StartTest 1 1 6000; SubmitAnswer 1 1 100 0 5;
             CompleteTest 1 1 7000] in
  (λ s, (session_id s, status s)) <$> getTestHistory (run db rs) 1
  = [(0%nat, COMPLETED)]
  ∧ (λ s, (session_id s, status s, length (answers s)))
      <$> db_sessions (run db rs)
    = [(0%nat, COMPLETED, 15%nat); (1%nat, IN_PROGRESS, 1%nat)].
Proof. by vm_compute. Qed.

(** ** A session just started *)

Lemma started_sessions db uid st now :
  db_sessions (saveSession (newSession db uid st now) db)
  = db_sessions db ++ [newSession db uid st now].
Proof. cbn. apply store_fresh, newSessionId_fresh. Qed.

Lemma old_sessions_not_new db x :
  x ∈ db_sessions db → session_id x ≠ newSessionId db.
Proof.
  intros Hx Heq. apply (newSessionId_fresh db). rewrite <- Heq.
  by apply list_elem_of_fmap_2.
Qed.

(** Starting twice: after [startTest] has created a session, a second
    [startTest] of the same user for the same step, at any later time,
    returns that very session, still without answers, and writes
    nothing. *)
Theorem start_twice_resumes db uid st now now' db' sid qs tl n :
  startTest db uid st now = Done (db', SessionStarted sid qs tl n) →
  ∃ s,
    startTest db' uid st now' = Done (db', SessionInProgress s)
    ∧ sessionById sid db' = Some s
    ∧ session_id s = sid ∧ startTime s = now ∧ answers s = []
    ∧ length (questions s) = n.
Proof.
  intros [(u & Hu & He) [(s & _ & _ & [=])|(Hex & Hp & -> & Hd)]]%startTest_Done.
  injection Hd as -> _ -> ->.
  exists (newSession db uid st now). split_and!; try done.
  - apply (startTest_resume _ _ _ _ u); [by eapply canTakeTestStep_step|done..|].
    unfold existingSession. rewrite started_sessions.
    rewrite findOne_app_new; [done | exact (findOne_None _ _ Hex) | done].
  - apply (sessionById_saveSession (newSession db uid st now)).
  - cbn. by rewrite length_fmap.
Qed.

Lemma start_twice_resumes_witness :
  let db := Scenario.initial None 3 1 in
  let r := startTest db 1 1 1000 in
  r = Done (after db r,
            SessionStarted 0
              ((λ q, (question_id q, text <$> options q)) <$> Scenario.pool 3 1)
              30 3)
  ∧ ∃ s,
      startTest (after db r) 1 1 2000 = Done (after db r, SessionInProgress s)
      ∧ sessionById 0 (after db r) = Some s
      ∧ session_id s = 0%nat ∧ startTime s = 1000 ∧ answers s = []
      ∧ length (questions s) = 3%nat.
Proof.
  assert (Hr : startTest (Scenario.initial None 3 1) 1 1 1000
               = Done (after (Scenario.initial None 3 1)
                         (startTest (Scenario.initial None 3 1) 1 1 1000),
                       SessionStarted 0
                         ((λ q, (question_id q, text <$> options q))
                          <$> Scenario.pool 3 1) 30 3))
    by (vm_compute; reflexivity).
  split; [exact Hr|].
  exact (start_twice_resumes (Scenario.initial None 3 1) 1 1 1000 2000
           _ _ _ _ _ Hr).
Defined.

(** The clock of a session just started: it has the full 30 minutes at
    its start, and it is expired exactly when the clock is more than
    1,800,000 milliseconds past the start. *)
Theorem started_session_has_30_minutes db uid st now db' sid qs tl n :
  startTest db uid st now = Done (db', SessionStarted sid qs tl n) →
  ∃ s,
    sessionById sid db' = Some s
    ∧ tl = 30 ∧ timeLimit s = 30
    ∧ getRemainingTime s now = 30
    ∧ ∀ t, isExpired s t = true ↔ now + 1800000 < t.
Proof.
  intros [_ [(s & _ & _ & [=])|(Hex & Hp & -> & Hd)]]%startTest_Done.
  injection Hd as -> _ -> ->.
  exists (newSession db uid st now). split_and!; try done.
  - apply (sessionById_saveSession (newSession db uid st now)).
  - rewrite getRemainingTime_running by done. unfold expiredTime. cbn.
    replace (now + 30 * 60 * 1000 - now) with 1800000 by lia. done.
  - intros t. rewrite isExpired_running by done.
    rewrite bool_decide_eq_true. unfold expiredTime. cbn. lia.
Qed.

Lemma started_session_has_30_minutes_witness :
  let db := Scenario.initial None 3 1 in
  let r := startTest db 1 1 1000 in
  r = Done (after db r,
            SessionStarted 0
              ((λ q, (question_id q, text <$> options q)) <$> Scenario.pool 3 1)
              30 3)
  ∧ ∃ s,
      sessionById 0 (after db r) = Some s
      ∧ 30 = 30 ∧ timeLimit s = 30
      ∧ getRemainingTime s 1000 = 30
      ∧ ∀ t, isExpired s t = true ↔ 1000 + 1800000 < t.
Proof.
  assert (Hr : startTest (Scenario.initial None 3 1) 1 1 1000
               = Done (after (Scenario.initial None 3 1)
                         (startTest (Scenario.initial None 3 1) 1 1 1000),
                       SessionStarted 0
                         ((λ q, (question_id q, text <$> options q))
                          <$> Scenario.pool 3 1) 30 3))
    by (vm_compute; reflexivity).
  split; [exact Hr|].
  exact (started_session_has_30_minutes (Scenario.initial None 3 1) 1 1 1000
           _ _ _ _ _ Hr).
Defined.

Lemma populate_drawn db (sub : list Question) :
  NoDup (question_id <$> db_questions db) →
  (∀ q, q ∈ sub → q ∈ db_questions db) →
  populate (question_id <$> sub) db = sub.
Proof.
  intros Hnd. induction sub as [|q sub IH]; intros Hsub; [done|].
  unfold populate in *. cbn.
  assert (Hq : findOne (λ x, question_id x = question_id q) (db_questions db)
               = Some q).
  { assert (Hin : q ∈ db_questions db) by (apply Hsub; left).
    destruct (findOne_is_Some (λ x, question_id x = question_id q)
                (db_questions db) q Hin eq_refl) as [x Hx].
    rewrite Hx. f_equal. apply findOne_Some in Hx as [Hxl Hxid].
    by apply (unique_key question_id (db_questions db)). }
  rewrite Hq. cbn. f_equal. apply IH. intros x Hx. apply Hsub. by right.
Qed.

(** Reading a started session back: for its owner [getTestSession]
    returns the session together with the very questions drawn, whole
    documents with the [isCorrect] flag of every option, where
    [startTest]'s own response had only their ids and option texts; for
    any other user the same id is answered with 404. *)
Theorem started_session_read_back db uid st now db' sid qs tl n :
  NoDup (question_id <$> db_questions db) →
  startTest db uid st now = Done (db', SessionStarted sid qs tl n) →
  ∃ s drawn,
    getTestSession db' uid sid = Done (s, drawn)
    ∧ drawn = take 20 (questionPool st db)
    ∧ questions s = question_id <$> drawn
    ∧ qs = (λ q, (question_id q, text <$> options q)) <$> drawn
    ∧ ∀ uid', uid' ≠ uid →
        getTestSession db' uid' sid
        = Thrown (mkFailure 404 "Test session not found").
Proof.
  intros Hnd [_ [(s & _ & _ & [=])|(Hex & Hp & -> & Hd)]]%startTest_Done.
  injection Hd as -> -> -> ->.
  exists (newSession db uid st now), (take 20 (questionPool st db)).
  split_and!; try done.
  - unfold getTestSession. rewrite started_sessions.
    rewrite findOne_app_new; [|by intros y Hy [? _]; eapply old_sessions_not_new
                              |done].
    handler. do 2 f_equal. apply populate_drawn; [done|].
    intros q Hq. eapply elem_of_sublist; [done|].
    etransitivity; [apply sublist_take | apply sublist_filter].
  - intros uid' Hne. unfold getTestSession. rewrite started_sessions.
    rewrite findOne_app_old by (intros [_ ?]; done).
    destruct (findOne _ (db_sessions db)) as [y|] eqn:E; [|done].
    apply findOne_Some in E as [Hy [Hyid _]].
    by destruct (old_sessions_not_new db y).
Qed.

Lemma started_session_read_back_witness :
  let db := Scenario.initial None 3 1 in
  let r := startTest db 1 1 1000 in
  (NoDup (question_id <$> db_questions db)
   ∧ r = Done (after db r,
               SessionStarted 0
                 ((λ q, (question_id q, text <$> options q))
                  <$> Scenario.pool 3 1) 30 3))
  ∧ ∃ s drawn,
      getTestSession (after db r) 1 0 = Done (s, drawn)
      ∧ drawn = take 20 (questionPool 1 db)
      ∧ questions s = question_id <$> drawn
      ∧ (λ q, (question_id q, text <$> options q)) <$> Scenario.pool 3 1
        = (λ q, (question_id q, text <$> options q)) <$> drawn
      ∧ ∀ uid', uid' ≠ 1%nat →
          getTestSession (after db r) uid' 0
          = Thrown (mkFailure 404 "Test session not found").
Proof.
  assert (Hq : NoDup (question_id <$> db_questions (Scenario.initial None 3 1)))
    by (apply (bool_decide_unpack (NoDup _)); vm_compute; exact I).
  assert (Hr : startTest (Scenario.initial None 3 1) 1 1 1000
               = Done (after (Scenario.initial None 3 1)
                         (startTest (Scenario.initial None 3 1) 1 1 1000),
                       SessionStarted 0
                         ((λ q, (question_id q, text <$> options q))
                          <$> Scenario.pool 3 1) 30 3))
    by (vm_compute; reflexivity).
  split; [by split|].
  exact (started_session_read_back (Scenario.initial None 3 1) 1 1 1000
           _ _ _ _ _ Hq Hr).
Defined.

(** ** The current test and the available tests *)

(** [getCurrentTest] looks at no step: it answers 404 exactly when the
    user has no session in progress at any step; and in a reachable
    state the session it returns is the one [startTest] resumes for
    that session's step, if the user still passes the gate. *)
Theorem current_test_is_the_one_resumed db0 db uid :
  db_sessions db0 = [] → reachable db0 db →
  (getCurrentTest db uid
   = Thrown (mkFailure 404 "No active test session found")
   ↔ ∀ st, existingSession uid st db = None)
  ∧ ∀ s drawn u now,
      getCurrentTest db uid = Done (s, drawn) →
      userById uid db = Some u → canTakeTestStep u (step s) = true →
      userId s = uid ∧ status s = IN_PROGRESS
      ∧ startTest db uid (step s) now = Done (db, SessionInProgress s).
Proof.
  intros H0 Hr. destruct (reachable_Inv db0 db H0 Hr) as [_ Ho].
  unfold getCurrentTest.
  destruct (findOne (λ s, userId s = uid ∧ status s = IN_PROGRESS)
              (db_sessions db)) as [x|] eqn:E; handler.
  - apply findOne_Some in E as (Hx & Hxu & Hxs). split.
    + split; [done|]. intros Hall. specialize (Hall (step x)).
      unfold existingSession in Hall.
      by destruct (findOne_None _ _ Hall x Hx).
    + intros s drawn u now Hd Hu He. unfold mret, Except_ret in Hd.
      injection Hd as <- _. split_and!; [done..|].
      apply (startTest_resume _ _ _ _ u);
        [by eapply canTakeTestStep_step | done | done |].
      apply findOne_unique; [apply (Ho uid (step x)) | done | done].
  - split; [|intros s drawn u now Hd; discriminate Hd].
    split; [|done]. intros _ st.
    destruct (existingSession uid st db) as [y|] eqn:Ey; [|done].
    unfold existingSession in Ey.
    apply findOne_Some in Ey as (Hy & Hyu & _ & Hys).
    by destruct (findOne_None _ _ E y Hy).
Qed.

Lemma current_test_is_the_one_resumed_witness :
  let db0 := Scenario.initial None 20 1 in
  let db := Scenario.stage1_5_of_20 in
  (db_sessions db0 = [] ∧ reachable db0 db)
  ∧ (getCurrentTest db 1
     = Thrown (mkFailure 404 "No active test session found")
     ↔ ∀ st, existingSession 1 st db = None)
  ∧ ∀ s drawn u now,
      getCurrentTest db 1 = Done (s, drawn) →
      userById 1 db = Some u → canTakeTestStep u (step s) = true →
      userId s = 1%nat ∧ status s = IN_PROGRESS
      ∧ startTest db 1 (step s) now = Done (db, SessionInProgress s).
Proof.
  assert (H0 : db_sessions (Scenario.initial None 20 1) = []) by reflexivity.
  assert (Hr : reachable (Scenario.initial None 20 1) Scenario.stage1_5_of_20)
    by (eexists; reflexivity).
  split; [by split|].
  exact (current_test_is_the_one_resumed (Scenario.initial None 20 1)
           Scenario.stage1_5_of_20 1 H0 Hr).
Defined.

Lemma available_steps u :
  filter (λ st, canTakeTestStep u st = true) [1; 2; 3]
  = if canTakeTest u then stepsOfLevel (currentLevel u) else [].
Proof. by destruct u as [id [[]|] [] last]. Qed.

Lemma startTest_not_403 db uid st now u :
  1 ≤ st ≤ 3 → userById uid db = Some u →
  (canTakeTestStep u st = true
   ↔ startTest db uid st now
     ≠ Thrown (mkFailure 403 "You are not eligible to take this test step")).
Proof.
  intros Hst Hu. split.
  - intros He.
    destruct (existingSession uid st db) as [s|] eqn:Hs.
    { by rewrite (startTest_resume _ _ _ _ u s). }
    destruct (decide (questionPool st db = [])) as [Hp|Hp].
    { by rewrite (startTest_no_questions _ _ _ _ u). }
    destruct (decide (st = 1)) as [H1|H1].
    + by rewrite (startTest_created _ _ _ _ u).
    + by rewrite (startTest_refused _ _ _ _ u).
  - intros Hne. destruct (canTakeTestStep u st) eqn:He; [done|].
    by rewrite (startTest_ineligible _ _ _ _ u) in Hne.
Qed.

(** [getAvailableTests] lists the steps by the user's flag and level:
    none with [canTakeTest] off, otherwise step 1 for no level or A1,
    steps 1 and 2 for A2, step 2 for B1, steps 2 and 3 for B2, step 3
    for C1 and C2.  Each entry carries the levels of its step, the
    number of active questions of the step and 30 minutes.  The listed
    steps are exactly those [startTest] does not refuse with 403; an
    entry counting no question is one [startTest] answers with 404
    when no session is in progress. *)
Theorem available_tests_follow_the_gate db uid u :
  userById uid db = Some u →
  ∃ tests,
    getAvailableTests db uid
    = Done (mkAvailableData tests (currentLevel u) (canTakeTest u))
    ∧ at_step <$> tests
      = (if canTakeTest u then stepsOfLevel (currentLevel u) else [])
    ∧ (∀ t, t ∈ tests →
            at_levels t = getStepLevels (at_step t)
            ∧ at_timeLimit t = 30
            ∧ at_questionCount t = length (questionPool (at_step t) db))
    ∧ (∀ st now,
         1 ≤ st ≤ 3 →
         (st ∈ at_step <$> tests
          ↔ startTest db uid st now
            ≠ Thrown (mkFailure 403
                        "You are not eligible to take this test step")))
    ∧ (∀ t now,
         t ∈ tests → at_questionCount t = 0%nat →
         existingSession uid (at_step t) db = None →
         startTest db uid (at_step t) now
         = Thrown (mkFailure 404 "No questions available for this test step")).
Proof.
  intros Hu. unfold getAvailableTests. unfold userById in Hu. rewrite Hu.
  handler. fold (userById uid db) in Hu.
  set (entry := λ st : Z, mkAvailableTest st _ _ _ _).
  set (steps := filter (λ st, canTakeTestStep u st = true) [1; 2; 3]).
  assert (Hsteps : at_step <$> (entry <$> steps) = steps).
  { rewrite <- list_fmap_compose. by rewrite <- (list_fmap_id steps) at 2. }
  assert (Hgate : ∀ st, st ∈ steps ↔ canTakeTestStep u st = true).
  { intros st. unfold steps. rewrite list_elem_of_filter. split; [tauto|].
    intros He. split; [done|].
    pose proof (canTakeTestStep_step _ _ He). elems. }
  exists (entry <$> steps). split_and!.
  - done.
  - rewrite Hsteps. apply available_steps.
  - by intros t (st & -> & _)%list_elem_of_fmap.
  - intros st now Hst. rewrite Hsteps, Hgate. by apply startTest_not_403.
  - intros t now (st & -> & Hst)%list_elem_of_fmap Hcount Hex.
    apply Hgate in Hst. cbn in *.
    apply (startTest_no_questions _ _ _ _ u);
      [by eapply canTakeTestStep_step | done..|].
    unfold questionPool. by destruct (filter _ (db_questions db)).
Qed.

Lemma available_tests_follow_the_gate_witness :
  let db := Scenario.levelB2 in
  let u := mkUser 1 (Some B2) true None in
  userById 1 db = Some u
  ∧ ∃ tests,
      getAvailableTests db 1
      = Done (mkAvailableData tests (currentLevel u) (canTakeTest u))
      ∧ at_step <$> tests
        = (if canTakeTest u then stepsOfLevel (currentLevel u) else [])
      ∧ (∀ t, t ∈ tests →
              at_levels t = getStepLevels (at_step t)
              ∧ at_timeLimit t = 30
              ∧ at_questionCount t = length (questionPool (at_step t) db))
      ∧ (∀ st now,
           1 ≤ st ≤ 3 →
           (st ∈ at_step <$> tests
            ↔ startTest db 1 st now
              ≠ Thrown (mkFailure 403
                          "You are not eligible to take this test step")))
      ∧ (∀ t now,
           t ∈ tests → at_questionCount t = 0%nat →
           existingSession 1 (at_step t) db = None →
           startTest db 1 (at_step t) now
           = Thrown (mkFailure 404
                       "No questions available for this test step")).
Proof.
  assert (Hu : userById 1 Scenario.levelB2
               = Some (mkUser 1 (Some B2) true None))
    by (vm_compute; reflexivity).
  split; [exact Hu|].
  exact (available_tests_follow_the_gate Scenario.levelB2 1 _ Hu).
Defined.

(** The tests offered to a user at B2: steps 2 and 3, of which step 3
    has no question; started, step 2 is answered with 500 and step 3
    with 404. *)
Example available_tests_example :
  (λ d, (λ t, (at_step t, at_questionCount t, at_levels t))
        <$> av_availableTests d)
  <$> response' (getAvailableTests Scenario.levelB2 1)
  = Some [(2, 20%nat, [B1; B2]); (3, 0%nat, [C1; C2])]
  ∧ startTest Scenario.levelB2 1 2 1000
    = Thrown (mkFailure 500 "Internal server error")
  ∧ startTest Scenario.levelB2 1 3 1000
    = Thrown (mkFailure 404 "No questions available for this test step").
Proof. by vm_compute. Qed.

(** ** The question model and the question routes

    Of the question controller the check of the options and
    [deleteQuestion] are embedded.  [createQuestion], [updateQuestion]
    and [bulkCreateQuestions] pass the request body on to the model,
    whose casts and validators decide what is stored; for the
    invariants above their effect is covered by [SaveQuestion], the
    write of any question document. *)

Lemma checkOptions_Done opts :
  checkOptions opts = Done () ↔ validOptions opts.
Proof.
  unfold checkOptions, validOptions. case_bool_decide as Hlen; handler.
  - split; [done|]. intros [? _]. lia.
  - destruct (existsb optIsCorrect opts); cbn; split; try done.
    + intros _. split; [lia|done].
    + by intros [_ ?].
Qed.

Lemma checkOptions_Thrown opts e :
  checkOptions opts = Thrown e → statusCode e = 400%nat.
Proof.
  unfold checkOptions. case_bool_decide; handler; [by intros [= <-]|].
  destruct (existsb optIsCorrect opts); cbn; [done|by intros [= <-]].
Qed.

Lemma questionPreSave_None q :
  questionPreSave q = None ↔ validOptions (options q).
Proof.
  unfold questionPreSave, validOptions.
  destruct (existsb optIsCorrect (options q)); cbn.
  - case_bool_decide; split; try done.
    + intros [? _]. lia.
    + intros _. split; [lia|done].
  - split; [done|]. by intros [_ ?].
Qed.

(** The controller's check and the model's hook accept the same option
    lists, two to four options with a correct one among them; they ask
    in opposite order, so for a list that fails both ways the controller
    complains of the number of options and the hook of the missing
    correct answer. *)
Theorem controller_and_hook_accept_the_same_options q :
  (checkOptions (options q) = Done () ↔ questionPreSave q = None)
  ∧ (questionPreSave q = None
     ↔ (2 ≤ length (options q) ≤ 4)%nat
       ∧ ∃ o, o ∈ options q ∧ optIsCorrect o = true)
  ∧ (¬ (2 ≤ length (options q) ≤ 4)%nat →
     (∀ o, o ∈ options q → optIsCorrect o = false) →
     checkOptions (options q)
     = Thrown (mkFailure 400 "Question must have between 2 and 4 options")
     ∧ questionPreSave q
       = Some "Question must have at least one correct answer").
Proof.
  split_and!.
  - by rewrite checkOptions_Done, questionPreSave_None.
  - rewrite questionPreSave_None. unfold validOptions.
    rewrite existsb_exists. split; intros [Hlen (o & Ho & Hc)];
      (split; [done|]); exists o; split; try done.
    + by apply list_elem_of_In.
    + by apply list_elem_of_In.
  - intros Hlen Hnone.
    assert (Hex : existsb optIsCorrect (options q) = false).
    { destruct (existsb optIsCorrect (options q)) eqn:E; [|done].
      apply existsb_exists in E as (o & Ho%list_elem_of_In & Hc).
      by rewrite (Hnone o Ho) in Hc. }
    unfold checkOptions, questionPreSave. rewrite Hex. cbn.
    rewrite bool_decide_eq_true_2 by lia. done.
Qed.

Lemma populate_length ids db :
  (length (populate ids db) ≤ length ids)%nat.
Proof.
  unfold populate. induction ids as [|k ids IH]; cbn; [done|].
  destruct (findOne (λ q, question_id q = k) (db_questions db)); cbn; lia.
Qed.

Lemma populate_missing ids db id :
  id ∈ ids → questionById id db = None →
  (length (populate ids db) < length ids)%nat.
Proof.
  unfold questionById. intros Hin Hq.
  induction ids as [|k ids IH]; [inversion Hin|].
  apply elem_of_cons in Hin as [<-|Hin].
  - pose proof (populate_length ids db). unfold populate in *. cbn.
    rewrite Hq. cbn. lia.
  - specialize (IH Hin). unfold populate in *. cbn.
    destruct (findOne (λ q, question_id q = k) (db_questions db));
      cbn; lia.
Qed.

Lemma findOne_deleteDoc_None {A} (key : A → nat) (id id0 : nat) l :
  findOne (λ x, key x = id) l = None →
  findOne (λ x, key x = id) (deleteDoc key id0 l) = None.
Proof.
  intros Hn.
  destruct (findOne (λ x, key x = id) (deleteDoc key id0 l)) as [y|] eqn:E;
    [|done].
  apply findOne_Some in E as [Hy%elem_of_deleteDoc Hk].
  by destruct (findOne_None _ _ Hn y Hy).
Qed.

(** A question that is not stored stays so until a document is written
    under its id. *)
Lemma handle_unknown_question db r id :
  (∀ q, r = SaveQuestion q → question_id q ≠ id) →
  questionById id db = None → questionById id (handle db r) = None.
Proof.
  intros Hr Hq. unfold questionById in *.
  destruct r as [uid st now|uid sid qid sel ts|uid sid now|q|id0].
  - by rewrite handle_questions.
  - by rewrite handle_questions.
  - by rewrite handle_questions.
  - change (db_questions (handle db (SaveQuestion q)))
      with (store question_id q (db_questions db)).
    rewrite (findOne_store_ne question_id); [done|].
    intros Heq. by apply (Hr q).
  - destruct (handle_DeleteQuestion db id0) as (_ & _ & [->| ->]); [done|].
    by apply findOne_deleteDoc_None.
Qed.

Lemma run_unknown_question rs db id :
  (∀ q, SaveQuestion q ∈ rs → question_id q ≠ id) →
  questionById id db = None → questionById id (run db rs) = None.
Proof.
  revert db. induction rs as [|r rs IH]; intros db Hrs Hq; [done|].
  cbn. apply IH.
  - intros q Hin. apply Hrs. by right.
  - apply handle_unknown_question; [|done].
    intros q ->. apply Hrs. left.
Qed.

(** A deleted question stays on the sessions that drew it.
    [deleteQuestion] touches neither sessions nor users, and every
    other question is found as before.  From then on, whatever requests
    follow, as long as no document is written under the deleted id
    (the question routes create documents under new ids and update
    stored ones only), an answer to the question is refused with 404
    in every session in progress, and the question is missing from the
    questions [getCurrentTest] returns for a session that lists it. *)
Theorem deleted_question_cannot_be_answered db id db' rs :
  NoDup (question_id <$> db_questions db) →
  deleteQuestion db id = Done db' →
  (∀ q, SaveQuestion q ∈ rs → question_id q ≠ id) →
  db_sessions db' = db_sessions db ∧ db_users db' = db_users db
  ∧ (∀ qid, qid ≠ id → questionById qid db' = questionById qid db)
  ∧ questionById id (run db' rs) = None
  ∧ (∀ uid sid sel ts s,
       0 ≤ sel → 0 ≤ ts → activeSession uid sid (run db' rs) = Some s →
       submitAnswer (run db' rs) uid sid id sel ts
       = Thrown (mkFailure 404 "Question not found"))
  ∧ (∀ uid s drawn,
       getCurrentTest (run db' rs) uid = Done (s, drawn) →
       id ∈ questions s →
       (length drawn < length (questions s))%nat).
Proof.
  intros Hnd [_ ->]%deleteQuestion_Done Hrs.
  set (db' := mkDB _ _ _).
  assert (Hq' : questionById id db' = None) by (by apply findOne_deleteDoc).
  assert (Hq : questionById id (run db' rs) = None)
    by (by apply run_unknown_question).
  split_and!; try done.
  - intros qid Hne. by apply findOne_deleteDoc_ne.
  - intros uid sid sel ts s Hsel Hts Hs.
    unfold submitAnswer, activeSession, questionById in *.
    rewrite !bool_decide_eq_true_2 by done. handler.
    rewrite Hs. handler. by rewrite Hq.
  - intros uid s drawn Hd Hin. unfold getCurrentTest in Hd.
    destruct (findOne _ _) as [x|]; [|done]. revert Hd. handler.
    intros Hd. unfold mret, Except_ret in Hd. injection Hd as <- <-.
    by apply (populate_missing _ _ id).
Qed.

Lemma deleted_question_cannot_be_answered_witness :
  let db := Scenario.stage1_started in
  let db' := mkDB (db_users db) (deleteDoc question_id 100 (db_questions db))
               (db_sessions db) in
  let rs := [SubmitAnswer 1 0 101 0 5;
             SaveQuestion (mkQuestion 300 1 (Scenario.choice 2 0) true);
             StartTest 1 1 2000] in
  (NoDup (question_id <$> db_questions db)
   ∧ deleteQuestion db 100 = Done db'
   ∧ ∀ q, SaveQuestion q ∈ rs → question_id q ≠ 100%nat)
  ∧ db_sessions db' = db_sessions db ∧ db_users db' = db_users db
  ∧ (∀ qid, qid ≠ 100%nat → questionById qid db' = questionById qid db)
  ∧ questionById 100 (run db' rs) = None
  ∧ (∀ uid sid sel ts s,
       0 ≤ sel → 0 ≤ ts → activeSession uid sid (run db' rs) = Some s →
       submitAnswer (run db' rs) uid sid 100 sel ts
       = Thrown (mkFailure 404 "Question not found"))
  ∧ (∀ uid s drawn,
       getCurrentTest (run db' rs) uid = Done (s, drawn) →
       100%nat ∈ questions s →
       (length drawn < length (questions s))%nat).
Proof.
  assert (Hnd : NoDup (question_id <$> db_questions Scenario.stage1_started))
    by (apply (bool_decide_unpack (NoDup _)); vm_compute; exact I).
  assert (Hd : deleteQuestion Scenario.stage1_started 100
               = Done (mkDB (db_users Scenario.stage1_started)
                         (deleteDoc question_id 100
                            (db_questions Scenario.stage1_started))
                         (db_sessions Scenario.stage1_started)))
    by (vm_compute; reflexivity).
  assert (Hrs : ∀ q,
            SaveQuestion q
            ∈ [SubmitAnswer 1 0 101 0 5;
               SaveQuestion (mkQuestion 300 1 (Scenario.choice 2 0) true);
               StartTest 1 1 2000] →
            question_id q ≠ 100%nat).
  { intros q Hin.
    repeat (apply elem_of_cons in Hin as [Hin|Hin];
            [inversion Hin; subst; cbn; lia|]).
    inversion Hin. }
  split; [by split_and!|].
  exact (deleted_question_cannot_be_answered Scenario.stage1_started 100 _ _
           Hnd Hd Hrs).
Defined.

(** The started session of the scenario after question 100 is deleted:
    the session still lists 20 questions, 19 are returned, and an answer
    to question 100 is refused. *)
Example deleted_question_example :
  let db' := handle Scenario.stage1_started (DeleteQuestion 100) in
  (λ d, (length (questions d.1), length d.2))
  <$> response' (getCurrentTest db' 1) = Some (20%nat, 19%nat)
  ∧ response (submitAnswer db' 1 0 100 0 5)
    = Thrown (mkFailure 404 "Question not found").
Proof. by vm_compute. Qed.
